(** * Smart Home System firmware: the alarm / door state machine

    A shallow embedding of [main/app_main.c]: the driver helper
    [app_driver_set_gpio], the RainMaker write callback [write_cb] (the
    command router) and the polling task [ir_sensor_task] (the scheduler
    loop and the alarm/door state machine), followed by the properties the
    specification states about them.

    The firmware's globals, the locals of the polling task, the GPIO lines
    and the cloud-side parameter values form one explicit [state]; every
    call into the SDK is recorded as an [event], so that a function of the
    firmware is a state transformer that also returns the list of calls it
    made, in order. *)

From Stdlib Require Import ZArith String List Bool Lia.
From stdpp Require Import base gmap strings list fin_maps.

Import ListNotations.
Local Open Scope string_scope.
Local Open Scope list_scope.
Local Open Scope Z_scope.

(** ** Data model *)

(** [esp_err_t] is an [int]; the three codes the firmware can meet. *)
Definition esp_err_t : Type := Z.
Definition ESP_OK : esp_err_t := 0.
Definition ESP_FAIL : esp_err_t := -1.
Definition ESP_ERR_INVALID_ARG : esp_err_t := 258.

(** Hardware pins. *)
Definition gpio_num_t : Type := Z.
Definition LED_GPIO : gpio_num_t := 2.
Definition IR_SENSOR_GPIO : gpio_num_t := 3.
Definition BUZZER_GPIO : gpio_num_t := 4.

Definition TAG : string := "app_main".

(** A RainMaker device handle is identified by the device's name; a
    parameter handle by the name of its device and its own name. *)
Definition esp_rmaker_device_t : Type := string.
Definition esp_rmaker_param_t : Type := (string * string)%type.

Definition esp_rmaker_device_get_name (device : esp_rmaker_device_t) : string :=
  device.
Definition esp_rmaker_param_get_name (param : esp_rmaker_param_t) : string :=
  snd param.

(** Parameter values: the firmware only builds booleans and strings. *)
Inductive esp_rmaker_param_val_t : Type :=
| esp_rmaker_bool (b : bool)
| esp_rmaker_str (s : string).

Global Instance esp_rmaker_param_val_eq_dec : EqDecision esp_rmaker_param_val_t.
Proof. solve_decision. Defined.

(** Calls into the SDK, as the outside world sees them. *)
Inductive event : Type :=
| EvParamUpdate (param : esp_rmaker_param_t) (val : esp_rmaker_param_val_t)
| EvGpioSet (pin : gpio_num_t) (level : Z)
| EvDelay (ms : Z)
| EvRaiseAlert (msg : string)
| EvDiag (tag msg : string)
| EvLogW (tag msg : string).

Global Instance event_eq_dec : EqDecision event.
Proof. solve_decision. Defined.

(** The firmware's globals ([alarm_enabled], [led_state] and the two
    parameter handles, [None] for [NULL]), the locals of [ir_sensor_task]
    that live across iterations ([previous_sensor_state],
    [notification_sent]), and the two collaborators: the GPIO lines and the
    parameter values held by the cloud agent. *)
Record state : Type := mkState {
  alarm_enabled : bool;
  led_state : bool;
  door_status_param : option esp_rmaker_param_t;
  alarm_trigger_param : option esp_rmaker_param_t;
  previous_sensor_state : Z;
  notification_sent : bool;
  gpio_level : gmap Z Z;
  gpio_fault : gset Z;
  cloud : gmap (string * string) esp_rmaker_param_val_t
}.

Definition with_alarm_enabled (b : bool) (st : state) : state :=
  mkState b (led_state st) (door_status_param st) (alarm_trigger_param st)
          (previous_sensor_state st) (notification_sent st)
          (gpio_level st) (gpio_fault st) (cloud st).

Definition with_led_state (b : bool) (st : state) : state :=
  mkState (alarm_enabled st) b (door_status_param st) (alarm_trigger_param st)
          (previous_sensor_state st) (notification_sent st)
          (gpio_level st) (gpio_fault st) (cloud st).

Definition with_door_status_param (p : option esp_rmaker_param_t) (st : state) : state :=
  mkState (alarm_enabled st) (led_state st) p (alarm_trigger_param st)
          (previous_sensor_state st) (notification_sent st)
          (gpio_level st) (gpio_fault st) (cloud st).

Definition with_alarm_trigger_param (p : option esp_rmaker_param_t) (st : state) : state :=
  mkState (alarm_enabled st) (led_state st) (door_status_param st) p
          (previous_sensor_state st) (notification_sent st)
          (gpio_level st) (gpio_fault st) (cloud st).

Definition with_previous_sensor_state (v : Z) (st : state) : state :=
  mkState (alarm_enabled st) (led_state st) (door_status_param st)
          (alarm_trigger_param st) v (notification_sent st)
          (gpio_level st) (gpio_fault st) (cloud st).

Definition with_notification_sent (b : bool) (st : state) : state :=
  mkState (alarm_enabled st) (led_state st) (door_status_param st)
          (alarm_trigger_param st) (previous_sensor_state st) b
          (gpio_level st) (gpio_fault st) (cloud st).

Definition with_gpio_level (g : gmap Z Z) (st : state) : state :=
  mkState (alarm_enabled st) (led_state st) (door_status_param st)
          (alarm_trigger_param st) (previous_sensor_state st)
          (notification_sent st) g (gpio_fault st) (cloud st).

Definition with_cloud (c : gmap (string * string) esp_rmaker_param_val_t)
           (st : state) : state :=
  mkState (alarm_enabled st) (led_state st) (door_status_param st)
          (alarm_trigger_param st) (previous_sensor_state st)
          (notification_sent st) (gpio_level st) (gpio_fault st) c.

(** ** The effect monad: state passing plus the list of SDK calls made *)

Definition M (A : Type) : Type := state -> A * state * list event.

Definition ret {A : Type} (a : A) : M A := fun st => (a, st, []).

Definition bind {A B : Type} (m : M A) (k : A -> M B) : M B :=
  fun st =>
    let '(a, st1, e1) := m st in
    let '(b, st2, e2) := k a st1 in
    (b, st2, e1 ++ e2).

Definition get {A : Type} (f : state -> A) : M A := fun st => (f st, st, []).
Definition modify (f : state -> state) : M unit := fun st => (tt, f st, []).
Definition emit (e : event) : M unit := fun st => (tt, st, [e]).

Definition result_of {A : Type} (r : A * state * list event) : A := fst (fst r).
Definition state_of {A : Type} (r : A * state * list event) : state := snd (fst r).
Definition events_of {A : Type} (r : A * state * list event) : list event := snd r.

Declare Scope fw_scope.
Delimit Scope fw_scope with fw.
Notation "x <- m ;; k" := (bind m (fun x => k))
  (at level 100, m at next level, k at level 200, right associativity) : fw_scope.
Notation "m ;; k" := (bind m (fun _ => k))
  (at level 100, k at level 200, right associativity) : fw_scope.
Local Open Scope fw_scope.

(** ** The SDK calls the firmware makes *)

(** [strcmp]: zero exactly on equal strings, its sign the order otherwise. *)
Definition strcmp (a b : string) : Z :=
  match String.compare a b with
  | Eq => 0
  | Lt => -1
  | Gt => 1
  end.

(** Modelled from the spec: the GPIO abstraction of section 6
    ([set_line], [read_line]), with the HardwareApplyFailure of section 7:
    on a line in [gpio_fault] a write does not take effect and the call
    returns an error code. The call itself is recorded either way. *)
Definition gpio_set_level (pin : gpio_num_t) (level : Z) : M esp_err_t :=
  fun st =>
    if decide (pin ∈ gpio_fault st)
    then (ESP_ERR_INVALID_ARG, st, [EvGpioSet pin level])
    else (ESP_OK, with_gpio_level (<[pin := level]> (gpio_level st)) st,
          [EvGpioSet pin level]).

Definition gpio_get_level (pin : gpio_num_t) : M Z :=
  get (fun st => default 0 (gpio_level st !! pin)).

(** Modelled from the spec: the Parameter Sink of section 6, [push(param,
    value)]: the value is stored and the push is visible to the sync layer. *)
Definition esp_rmaker_param_update (param : esp_rmaker_param_t)
           (val : esp_rmaker_param_val_t) : M esp_err_t :=
  modify (fun st => with_cloud (<[param := val]> (cloud st)) st);;
  emit (EvParamUpdate param val);;
  ret ESP_OK.

(** Modelled from the spec: the Alert Channel of section 6. *)
Definition esp_rmaker_raise_alert (msg : string) : M esp_err_t :=
  emit (EvRaiseAlert msg);; ret ESP_OK.

Definition vTaskDelay (ms : Z) : M unit := emit (EvDelay ms).
Definition ESP_DIAG_EVENT (tag msg : string) : M unit := emit (EvDiag tag msg).
Definition ESP_LOGW (tag msg : string) : M unit := emit (EvLogW tag msg).

(** [if (p) esp_rmaker_param_update(p, v);] for a handle that may be [NULL]. *)
Definition update_if_set (p : option esp_rmaker_param_t)
           (val : esp_rmaker_param_val_t) : M unit :=
  match p with
  | Some h => esp_rmaker_param_update h val;; ret tt
  | None => ret tt
  end.

Definition level_of_bool (b : bool) : Z := if b then 1 else 0.

(** ** Hardware init and the driver helper

    [app_driver_init] also resets the three pins and sets their directions;
    only the two initial levels and [led_state] matter here. *)

Definition app_driver_init : M unit :=
  gpio_set_level LED_GPIO 0;;
  modify (with_led_state false);;
  gpio_set_level BUZZER_GPIO 0;;
  ret tt.

Definition app_driver_set_gpio (param_name : string) (value : bool) : M esp_err_t :=
  if strcmp param_name "Power" =? 0 then
    gpio_set_level LED_GPIO (if value then 1 else 0);;
    modify (with_led_state value);;
    ESP_DIAG_EVENT "LIGHT_ACTION"
                   (String.append "Light Power -> " (if value then "ON" else "OFF"));;
    ret ESP_OK
  else ret ESP_FAIL.

(** ** The RainMaker write callback (the command router)

    Both writable parameters are boolean and the callback reads [val.val.b],
    so the payload is a [bool]; the echo sends it back unchanged. *)
Definition write_cb (device : esp_rmaker_device_t) (param : esp_rmaker_param_t)
           (val : bool) : M esp_err_t :=
  let dev_name := esp_rmaker_device_get_name device in
  let param_name := esp_rmaker_param_get_name param in
  if (strcmp dev_name "Home Light" =? 0) && (strcmp param_name "Power" =? 0) then
    let new_val := val in
    r <- app_driver_set_gpio param_name new_val;;
    (if r =? ESP_OK
     then esp_rmaker_param_update param (esp_rmaker_bool val);; ret tt
     else ESP_LOGW TAG "Failed to apply power for Home Light");;
    ret ESP_OK
  else if (strcmp dev_name "Alarm System" =? 0) && (strcmp param_name "Power" =? 0) then
    modify (with_alarm_enabled val);;
    en <- get alarm_enabled;;
    ESP_DIAG_EVENT "ALARM_ACTION"
                   (String.append "Alarm System set to: " (if en then "ON" else "OFF"));;
    en <- get alarm_enabled;;
    (if negb en then
       dsp <- get door_status_param;;
       update_if_set dsp (esp_rmaker_str "CLOSED");;
       atp <- get alarm_trigger_param;;
       update_if_set atp (esp_rmaker_bool false);;
       gpio_set_level BUZZER_GPIO 0;;
       led <- get led_state;;
       gpio_set_level LED_GPIO (if led then 1 else 0);;
       ret tt
     else ret tt);;
    esp_rmaker_param_update param (esp_rmaker_bool val);;
    ret ESP_OK
  else ret ESP_OK.

(** ** The IR sensor task (the scheduler loop and the state machine) *)

(** How one pass through the loop body ends: by [continue], or by falling
    through to the delay at the bottom of the loop. *)
Inductive loop_exit : Type := LoopContinue | LoopFallThrough.

(** Part 1 of the loop body, "DOOR STATE HANDLING". *)
Definition door_state_handling (sensor_value : Z) : M unit :=
  prev <- get previous_sensor_state;;
  if negb (sensor_value =? prev) then
    (if sensor_value =? 1 then
       ESP_DIAG_EVENT "DOOR_ACTION" "Door Sensor: OPENED";;
       dsp <- get door_status_param;;
       update_if_set dsp (esp_rmaker_str "OPENED");;
       modify (with_notification_sent false)
     else
       ESP_DIAG_EVENT "DOOR_ACTION" "Door Sensor: CLOSED";;
       dsp <- get door_status_param;;
       update_if_set dsp (esp_rmaker_str "CLOSED");;
       atp <- get alarm_trigger_param;;
       update_if_set atp (esp_rmaker_bool false);;
       modify (with_notification_sent false));;
    modify (with_previous_sensor_state sensor_value)
  else ret tt.

(** Parts 2 and 3 of the loop body, "ALARM BEHAVIOR" and "ALARM OFF". *)
Definition alarm_behavior (sensor_value : Z) : M loop_exit :=
  en <- get alarm_enabled;;
  if en then
    if sensor_value =? 1 then
      atp <- get alarm_trigger_param;;
      update_if_set atp (esp_rmaker_bool true);;
      gpio_set_level BUZZER_GPIO 1;;
      led <- get led_state;;
      gpio_set_level LED_GPIO (level_of_bool (negb led));;
      vTaskDelay 150;;
      led <- get led_state;;
      gpio_set_level LED_GPIO (level_of_bool led);;
      vTaskDelay 150;;
      sent <- get notification_sent;;
      (if negb sent then
         esp_rmaker_raise_alert "Door opened while alarm is ON!";;
         ESP_DIAG_EVENT "SECURITY_ALERT" "Intrusion detected";;
         modify (with_notification_sent true)
       else ret tt);;
      ret LoopContinue
    else
      gpio_set_level BUZZER_GPIO 0;;
      led <- get led_state;;
      gpio_set_level LED_GPIO (level_of_bool led);;
      ret LoopFallThrough
  else
    dsp <- get door_status_param;;
    update_if_set dsp (esp_rmaker_str "CLOSED");;
    atp <- get alarm_trigger_param;;
    update_if_set atp (esp_rmaker_bool false);;
    gpio_set_level BUZZER_GPIO 0;;
    led <- get led_state;;
    gpio_set_level LED_GPIO (level_of_bool led);;
    ret LoopFallThrough.

(** One iteration of [while (1)]: a tick of the scheduler. *)
Definition ir_sensor_iteration : M unit :=
  sensor_value <- gpio_get_level IR_SENSOR_GPIO;;
  door_state_handling sensor_value;;
  c <- alarm_behavior sensor_value;;
  match c with
  | LoopContinue => ret tt
  | LoopFallThrough => vTaskDelay 200
  end.

(** The declarations at the top of [ir_sensor_task]. *)
Definition ir_sensor_task_entry : M unit :=
  modify (with_previous_sensor_state (-1));;
  modify (with_notification_sent false).

(** [ir_sensor_task] for its first [n] iterations, the lines and the
    globals left alone in between. *)
Fixpoint ir_sensor_loop (n : nat) : M unit :=
  match n with
  | O => ret tt
  | S n' => ir_sensor_iteration;; ir_sensor_loop n'
  end.

Definition ir_sensor_task (n : nat) : M unit :=
  ir_sensor_task_entry;; ir_sensor_loop n.

(** ** Start-up *)

(** Modelled from the spec: parameter creation and registration by the
    external sync layer ([esp_rmaker_param_create] followed by
    [esp_rmaker_device_add_param]); the parameter starts with the given
    value, and nothing is pushed. *)
Definition esp_rmaker_param_create (device : esp_rmaker_device_t) (name : string)
           (val : esp_rmaker_param_val_t) : M esp_rmaker_param_t :=
  modify (fun st => with_cloud (<[(device, name) := val]> (cloud st)) st);;
  ret (device, name).

(** The part of [app_main] the state machine depends on: the hardware
    init and the creation of the four parameters. *)
Definition app_main : M unit :=
  app_driver_init;;
  light_param <- esp_rmaker_param_create "Home Light" "Power" (esp_rmaker_bool false);;
  alarm_param <- esp_rmaker_param_create "Alarm System" "Power" (esp_rmaker_bool false);;
  dsp <- esp_rmaker_param_create "Door Sensor Status" "Door Status" (esp_rmaker_str "CLOSED");;
  modify (with_door_status_param (Some dsp));;
  atp <- esp_rmaker_param_create "Door Sensor Status" "Alarm Triggered" (esp_rmaker_bool false);;
  modify (with_alarm_trigger_param (Some atp));;
  ret tt.

(** The handles [app_main] stores in the two globals. *)
Definition door_status_handle : esp_rmaker_param_t :=
  ("Door Sensor Status", "Door Status").
Definition alarm_trigger_handle : esp_rmaker_param_t :=
  ("Door Sensor Status", "Alarm Triggered").

(** The initial values of the globals, before [app_main] runs, on a board
    with the given faulty lines and line levels. *)
Definition power_on (fault : gset Z) (lines : gmap Z Z) : state :=
  mkState false false None None 0 false lines fault ∅.

(** The state in which the polling loop starts. *)
Definition boot (fault : gset Z) (lines : gmap Z Z) : state :=
  state_of ((app_main;; ir_sensor_task_entry) (power_on fault lines)).

(** ** Executions: ticks, router writes and movements of the door

    In [perform] an iteration of the polling loop and a call of [write_cb]
    each run from beginning to end with nothing in between: [run] and
    [reachable] are the executions, and the states, in which no write comes
    in during an iteration and no iteration during a write. The executions
    in which they do are those of [sys_run], further down. *)

Inductive action : Type :=
| Tick
| Write (device : esp_rmaker_device_t) (param : esp_rmaker_param_t) (val : bool)
| Sensor (level : Z).

Definition perform (a : action) : M unit :=
  match a with
  | Tick => ir_sensor_iteration
  | Write device param val => write_cb device param val;; ret tt
  | Sensor level =>
      modify (fun st => with_gpio_level (<[IR_SENSOR_GPIO := level]> (gpio_level st)) st)
  end.

Fixpoint run (acts : list action) : M unit :=
  match acts with
  | [] => ret tt
  | a :: rest => perform a;; run rest
  end.

Definition reachable (st : state) : Prop :=
  exists fault lines acts, st = state_of (run acts (boot fault lines)).

(** ** The specification's vocabulary, read off the state *)

(** AlarmArmed and LightState are the two global flags. *)
Definition AlarmArmed (st : state) : bool := alarm_enabled st.
Definition LightState (st : state) : bool := led_state st.

(** DoorState is the stored previous reading of the sensor: 1 is open,
    -1 the value before the first reading, anything else closed. *)
Inductive door_state : Type := OPEN | CLOSED | UNKNOWN.

Definition DoorState (st : state) : door_state :=
  if previous_sensor_state st =? 1 then OPEN
  else if previous_sensor_state st =? -1 then UNKNOWN
  else CLOSED.

(** AlertActive is the value the sink holds for "Alarm Triggered";
    DoorStatus the one it holds for "Door Status". *)
Definition AlertActive (st : state) : bool :=
  bool_decide (cloud st !! alarm_trigger_handle = Some (esp_rmaker_bool true)).
Definition DoorStatus (st : state) : option esp_rmaker_param_val_t :=
  cloud st !! door_status_handle.

Definition NotificationSent (st : state) : bool := notification_sent st.

(** Both handles were created, as they are once [app_main] has run. *)
Definition params_created (st : state) : Prop :=
  door_status_param st = Some door_status_handle /\
  alarm_trigger_param st = Some alarm_trigger_handle.

(** The level of an output line, as last driven. *)
Definition line (pin : gpio_num_t) (st : state) : Z :=
  default 0 (gpio_level st !! pin).

(** Counting calls in a list of events. *)
Definition is_raise_alert (e : event) : bool :=
  match e with EvRaiseAlert _ => true | _ => false end.
Definition is_door_opened_push (e : event) : bool :=
  match e with
  | EvParamUpdate p (esp_rmaker_str s) =>
      (s =? "OPENED")%string && bool_decide (p = door_status_handle)
  | _ => false
  end.
Definition count_events (f : event -> bool) (evs : list event) : nat :=
  length (List.filter f evs).

(** ** Call sequences and state predicates used in the statements *)

(** The calls the door handling makes on a changed reading [s]. *)
Definition door_events (s : Z) : list event :=
  if s =? 1 then
    [EvDiag "DOOR_ACTION" "Door Sensor: OPENED";
     EvParamUpdate door_status_handle (esp_rmaker_str "OPENED")]
  else
    [EvDiag "DOOR_ACTION" "Door Sensor: CLOSED";
     EvParamUpdate door_status_handle (esp_rmaker_str "CLOSED");
     EvParamUpdate alarm_trigger_handle (esp_rmaker_bool false)].

(** The calls of the alarm behaviour on an armed tick that reads open, for
    the commanded light state [light] and the notification latch [sent] as
    the door handling left it. *)
Definition alert_events (light sent : bool) : list event :=
  [EvParamUpdate alarm_trigger_handle (esp_rmaker_bool true);
   EvGpioSet BUZZER_GPIO 1;
   EvGpioSet LED_GPIO (level_of_bool (negb light));
   EvDelay 150;
   EvGpioSet LED_GPIO (level_of_bool light);
   EvDelay 150] ++
  (if sent then []
   else [EvRaiseAlert "Door opened while alarm is ON!";
         EvDiag "SECURITY_ALERT" "Intrusion detected"]).

(** The calls of the full reset, for the commanded light state [light]. *)
Definition reset_events (light : bool) : list event :=
  [EvParamUpdate door_status_handle (esp_rmaker_str "CLOSED");
   EvParamUpdate alarm_trigger_handle (esp_rmaker_bool false);
   EvGpioSet BUZZER_GPIO 0;
   EvGpioSet LED_GPIO (level_of_bool light)].

(** The state the full reset leaves, in closed form: [push] is a sink push
    through a handle that may be [NULL], [drive] a GPIO write that a faulty
    line ignores. *)
Definition push (p : option esp_rmaker_param_t) (val : esp_rmaker_param_val_t)
           (st : state) : state :=
  match p with
  | Some h => with_cloud (<[h := val]> (cloud st)) st
  | None => st
  end.

Definition drive (pin : gpio_num_t) (level : Z) (st : state) : state :=
  if decide (pin ∈ gpio_fault st) then st
  else with_gpio_level (<[pin := level]> (gpio_level st)) st.

Definition reset_state (st : state) : state :=
  drive LED_GPIO (level_of_bool (led_state st))
    (drive BUZZER_GPIO 0
       (push (alarm_trigger_param st) (esp_rmaker_bool false)
          (push (door_status_param st) (esp_rmaker_str "CLOSED") st))).

(** The calls of a disarming write to [param], for the commanded light
    state [light]. *)
Definition disarm_events (param : esp_rmaker_param_t) (light : bool) : list event :=
  [EvDiag "ALARM_ACTION" "Alarm System set to: OFF"] ++
  reset_events light ++
  [EvParamUpdate param (esp_rmaker_bool false)].

(** The GPIO write of a light write to [val] does not take effect. *)
Definition gpio_apply_fails (val : bool) (st : state) : Prop :=
  result_of (gpio_set_level LED_GPIO (level_of_bool val) st) <> ESP_OK.

(** The behaviour the specification asks of a light write on which the GPIO
    write fails: no echo, a logged failure, LightState and the sink as
    before. *)
Definition light_write_atomic_on_failure (st : state) (param : esp_rmaker_param_t)
           (val : bool) : Prop :=
  gpio_apply_fails val st ->
  let r := write_cb "Home Light" param val st in
  ~ In (EvParamUpdate param (esp_rmaker_bool val)) (events_of r) /\
  (exists msg, In (EvLogW TAG msg) (events_of r)) /\
  led_state (state_of r) = led_state st /\
  cloud (state_of r) = cloud st.

(** The invariant carried along the executions of [run]. *)
Definition inv (st : state) : Prop :=
  params_created st /\
  (AlertActive st = true -> alarm_enabled st = true /\ previous_sensor_state st = 1) /\
  (notification_sent st = true -> previous_sensor_state st = 1).


(** An action that leaves the sensor line at open. *)
Definition keeps_open (a : action) : bool :=
  match a with
  | Sensor level => level =? 1
  | _ => true
  end.

(** ** Further vocabulary: time, commanded values, start-up *)

(** The time a list of calls spends in [vTaskDelay], in milliseconds. *)
Definition delay_of (e : event) : Z :=
  match e with EvDelay ms => ms | _ => 0 end.
Definition total_delay (evs : list event) : Z :=
  fold_right (fun e acc => delay_of e + acc) 0 evs.

Definition is_gpio_set (e : event) : bool :=
  match e with EvGpioSet _ _ => true | _ => false end.

(** The value the writes of an execution last commanded for the Power
    parameter of the device named [target], [init] if there was none. *)
Definition commands (target : string) (a : action) : option bool :=
  match a with
  | Write device param val =>
      if bool_decide (esp_rmaker_device_get_name device = target /\
                      esp_rmaker_param_get_name param = "Power")
      then Some val else None
  | _ => None
  end.
Definition commanded (target : string) (acts : list action) (init : bool) : bool :=
  fold_left (fun b a => default b (commands target a)) acts init.

(** A write as the agent delivers it: the parameter belongs to the device. *)
Definition well_addressed (a : action) : bool :=
  match a with
  | Write device param _ => bool_decide (fst param = esp_rmaker_device_get_name device)
  | _ => true
  end.

(** The ticks of an execution. *)
Definition is_tick (a : action) : bool :=
  match a with Tick => true | _ => false end.
Definition count_ticks (acts : list action) : nat :=
  length (List.filter is_tick acts).

(** One alert is still owed for the current open episode: the door was
    last seen open and no notification has been sent for it. *)
Definition alert_owed (st : state) : nat :=
  if (previous_sensor_state st =? 1) && negb (notification_sent st) then 1%nat else 0%nat.

(** What the infrastructure calls of [app_main] return on one start-up:
    the first [nvs_flash_init], [nvs_flash_erase], the second
    [nvs_flash_init], whether [esp_rmaker_node_init] returned a node,
    [app_network_start], and whether [xTaskCreate] returned [pdPASS]. *)
Record startup_env : Type := mkStartupEnv {
  nvs_flash_init_first : esp_err_t;
  nvs_flash_erase_result : esp_err_t;
  nvs_flash_init_second : esp_err_t;
  node_created : bool;
  app_network_start_result : esp_err_t;
  task_created : bool
}.

Inductive abort_reason : Type := NvsFailed | NodeInitFailed | WifiStartFailed.

(** How [app_main] ends: in [abort], or by returning after the "running"
    log line, with the polling task created or not. *)
Inductive startup_outcome : Type :=
| StartupAborted (why : abort_reason)
| StartupRunning (sensor_task : bool).

Section Startup.
(** The two NVS error codes of the SDK that [app_main] recovers from. *)
Variables ESP_ERR_NVS_NO_FREE_PAGES ESP_ERR_NVS_NEW_VERSION_FOUND : esp_err_t.

(** The NVS part of [app_main]: the error [ESP_ERROR_CHECK] finally sees
    ([None] when the erase itself was fatal) and whether the flash was
    erased. *)
Definition nvs_bringup (env : startup_env) : option esp_err_t * bool :=
  let err := nvs_flash_init_first env in
  if (err =? ESP_ERR_NVS_NO_FREE_PAGES) || (err =? ESP_ERR_NVS_NEW_VERSION_FOUND) then
    if nvs_flash_erase_result env =? ESP_OK
    then (Some (nvs_flash_init_second env), true)
    else (None, true)
  else (Some err, false).

(** [app_main] in full, in the order of the source; the calls that only
    configure the agent (network init, device creation, OTA, insights,
    agent start) have no effect on the state modelled here. *)
Definition app_main_startup (env : startup_env) : M startup_outcome :=
  app_driver_init;;
  match fst (nvs_bringup env) with
  | None => ret (StartupAborted NvsFailed)
  | Some err =>
      if negb (err =? ESP_OK) then ret (StartupAborted NvsFailed)
      else if negb (node_created env) then ret (StartupAborted NodeInitFailed)
      else
        light_param <- esp_rmaker_param_create "Home Light" "Power" (esp_rmaker_bool false);;
        alarm_param <- esp_rmaker_param_create "Alarm System" "Power" (esp_rmaker_bool false);;
        dsp <- esp_rmaker_param_create "Door Sensor Status" "Door Status" (esp_rmaker_str "CLOSED");;
        modify (with_door_status_param (Some dsp));;
        atp <- esp_rmaker_param_create "Door Sensor Status" "Alarm Triggered" (esp_rmaker_bool false);;
        modify (with_alarm_trigger_param (Some atp));;
        if negb (app_network_start_result env =? ESP_OK)
        then ret (StartupAborted WifiStartFailed)
        else ret (StartupRunning (task_created env))
  end.
End Startup.

(** ** The two tasks, statement by statement

    [ir_sensor_task] is a FreeRTOS task of its own and [write_cb] runs in
    the task of the cloud agent; nothing locks the globals they share. Below
    each of the two is cut into the steps the other task can come in
    between: one step per SDK call and per access to a global, the
    assignments to the locals of the polling task going with the step
    before them. [run] above is the executions in which no write comes in
    during an iteration and no iteration during a write; [sys_run] is all of
    them. *)

(** Where the polling task stands inside an iteration of its loop. *)
Inductive loop_pc : Type :=
| LReadSensor
| LOpenDiag (s : Z)
| LOpenPush (s : Z)
| LCloseDiag (s : Z)
| LClosePushDoor (s : Z)
| LClosePushAlert (s : Z)
| LStore (s : Z)
| LArmedTest (s : Z)
| LAlertPush
| LBuzzerOn
| LLedReadInv
| LLedInv (led : bool)
| LDelay1
| LLedReadBack
| LLedBack (led : bool)
| LDelay2
| LRaise
| LRaiseDiag
| LOffPushDoor
| LOffPushAlert
| LQuietBuzzer
| LQuietLedRead
| LQuietLed (led : bool)
| LTail.

(** One step of the loop body; [None] when the iteration is over. The
    buzzer-off, LED-restore and tail-delay steps are the same statements in
    the armed-closed and in the alarm-off branch and are shared. *)
Definition loop_step (pc : loop_pc) : M (option loop_pc) :=
  match pc with
  | LReadSensor =>
      sensor_value <- gpio_get_level IR_SENSOR_GPIO;;
      prev <- get previous_sensor_state;;
      ret (Some (if negb (sensor_value =? prev)
                 then if sensor_value =? 1 then LOpenDiag sensor_value
                      else LCloseDiag sensor_value
                 else LArmedTest sensor_value))
  | LOpenDiag s =>
      ESP_DIAG_EVENT "DOOR_ACTION" "Door Sensor: OPENED";; ret (Some (LOpenPush s))
  | LOpenPush s =>
      dsp <- get door_status_param;;
      update_if_set dsp (esp_rmaker_str "OPENED");; ret (Some (LStore s))
  | LCloseDiag s =>
      ESP_DIAG_EVENT "DOOR_ACTION" "Door Sensor: CLOSED";; ret (Some (LClosePushDoor s))
  | LClosePushDoor s =>
      dsp <- get door_status_param;;
      update_if_set dsp (esp_rmaker_str "CLOSED");; ret (Some (LClosePushAlert s))
  | LClosePushAlert s =>
      atp <- get alarm_trigger_param;;
      update_if_set atp (esp_rmaker_bool false);; ret (Some (LStore s))
  | LStore s =>
      modify (with_notification_sent false);;
      modify (with_previous_sensor_state s);; ret (Some (LArmedTest s))
  | LArmedTest s =>
      en <- get alarm_enabled;;
      ret (Some (if en then if s =? 1 then LAlertPush else LQuietBuzzer
                 else LOffPushDoor))
  | LAlertPush =>
      atp <- get alarm_trigger_param;;
      update_if_set atp (esp_rmaker_bool true);; ret (Some LBuzzerOn)
  | LBuzzerOn => gpio_set_level BUZZER_GPIO 1;; ret (Some LLedReadInv)
  | LLedReadInv => led <- get led_state;; ret (Some (LLedInv led))
  | LLedInv led => gpio_set_level LED_GPIO (level_of_bool (negb led));; ret (Some LDelay1)
  | LDelay1 => vTaskDelay 150;; ret (Some LLedReadBack)
  | LLedReadBack => led <- get led_state;; ret (Some (LLedBack led))
  | LLedBack led => gpio_set_level LED_GPIO (level_of_bool led);; ret (Some LDelay2)
  | LDelay2 =>
      vTaskDelay 150;;
      sent <- get notification_sent;;
      ret (if negb sent then Some LRaise else None)
  | LRaise =>
      esp_rmaker_raise_alert "Door opened while alarm is ON!";; ret (Some LRaiseDiag)
  | LRaiseDiag =>
      ESP_DIAG_EVENT "SECURITY_ALERT" "Intrusion detected";;
      modify (with_notification_sent true);; ret None
  | LOffPushDoor =>
      dsp <- get door_status_param;;
      update_if_set dsp (esp_rmaker_str "CLOSED");; ret (Some LOffPushAlert)
  | LOffPushAlert =>
      atp <- get alarm_trigger_param;;
      update_if_set atp (esp_rmaker_bool false);; ret (Some LQuietBuzzer)
  | LQuietBuzzer => gpio_set_level BUZZER_GPIO 0;; ret (Some LQuietLedRead)
  | LQuietLedRead => led <- get led_state;; ret (Some (LQuietLed led))
  | LQuietLed led => gpio_set_level LED_GPIO (level_of_bool led);; ret (Some LTail)
  | LTail => vTaskDelay 200;; ret None
  end.

(** The polling task left alone from [pc] for at most [fuel] steps; the
    result is where it stands then, [None] once the iteration is over. *)
Fixpoint loop_run (fuel : nat) (pc : loop_pc) : M (option loop_pc) :=
  match fuel with
  | O => ret (Some pc)
  | S fuel' =>
      next <- loop_step pc;;
      match next with
      | None => ret None
      | Some pc' => loop_run fuel' pc'
      end
  end.

(** Where the agent's task stands inside a call of [write_cb]. *)
Inductive router_pc : Type :=
| WLightGpio
| WLightStore
| WLightDiag
| WLightEcho
| WLightLog
| WAlarmStore
| WAlarmDiag
| WAlarmTest
| WResetPushDoor
| WResetPushAlert
| WResetBuzzer
| WResetLedRead
| WResetLed (led : bool)
| WAlarmEcho.

(** The tests on the two names: where the call starts, [None] when it
    returns at once. *)
Definition router_entry (device : esp_rmaker_device_t) (param : esp_rmaker_param_t)
  : option router_pc :=
  let dev_name := esp_rmaker_device_get_name device in
  let param_name := esp_rmaker_param_get_name param in
  if (strcmp dev_name "Home Light" =? 0) && (strcmp param_name "Power" =? 0) then
    Some (if strcmp param_name "Power" =? 0 then WLightGpio else WLightLog)
  else if (strcmp dev_name "Alarm System" =? 0) && (strcmp param_name "Power" =? 0) then
    Some WAlarmStore
  else None.

(** One step of [write_cb] (those of [app_driver_set_gpio] included);
    [None] when the call returns. *)
Definition router_step (param : esp_rmaker_param_t) (val : bool) (pc : router_pc)
  : M (option router_pc) :=
  match pc with
  | WLightGpio => gpio_set_level LED_GPIO (if val then 1 else 0);; ret (Some WLightStore)
  | WLightStore => modify (with_led_state val);; ret (Some WLightDiag)
  | WLightDiag =>
      ESP_DIAG_EVENT "LIGHT_ACTION"
                     (String.append "Light Power -> " (if val then "ON" else "OFF"));;
      ret (Some WLightEcho)
  | WLightEcho => esp_rmaker_param_update param (esp_rmaker_bool val);; ret None
  | WLightLog => ESP_LOGW TAG "Failed to apply power for Home Light";; ret None
  | WAlarmStore => modify (with_alarm_enabled val);; ret (Some WAlarmDiag)
  | WAlarmDiag =>
      en <- get alarm_enabled;;
      ESP_DIAG_EVENT "ALARM_ACTION"
                     (String.append "Alarm System set to: " (if en then "ON" else "OFF"));;
      ret (Some WAlarmTest)
  | WAlarmTest =>
      en <- get alarm_enabled;;
      ret (Some (if negb en then WResetPushDoor else WAlarmEcho))
  | WResetPushDoor =>
      dsp <- get door_status_param;;
      update_if_set dsp (esp_rmaker_str "CLOSED");; ret (Some WResetPushAlert)
  | WResetPushAlert =>
      atp <- get alarm_trigger_param;;
      update_if_set atp (esp_rmaker_bool false);; ret (Some WResetBuzzer)
  | WResetBuzzer => gpio_set_level BUZZER_GPIO 0;; ret (Some WResetLedRead)
  | WResetLedRead => led <- get led_state;; ret (Some (WResetLed led))
  | WResetLed led => gpio_set_level LED_GPIO (if led then 1 else 0);; ret (Some WAlarmEcho)
  | WAlarmEcho => esp_rmaker_param_update param (esp_rmaker_bool val);; ret None
  end.

(** The agent's task left alone from [pc] for at most [fuel] steps; [None]
    once the call has returned. *)
Fixpoint router_run (fuel : nat) (param : esp_rmaker_param_t) (val : bool)
         (pc : router_pc) : M (option router_pc) :=
  match fuel with
  | O => ret (Some pc)
  | S fuel' =>
      next <- router_step param val pc;;
      match next with
      | None => ret None
      | Some pc' => router_run fuel' param val pc'
      end
  end.

(** The whole system: the shared state, where the polling task is ([None]
    between two iterations) and the call the agent's task is in, if any. *)
Record sys : Type := mkSys {
  mem : state;
  loop_at : option loop_pc;
  router_at : option (esp_rmaker_param_t * bool * router_pc)
}.

(** What can happen next: a step of the polling task (the first step of a
    new iteration when it is between two), a step of the call in progress,
    the arrival of a write (the agent delivers one at a time: a write that
    arrives during a call is not modelled), a movement of the door. *)
Inductive move : Type :=
| MLoop
| MRouter
| MWrite (device : esp_rmaker_device_t) (param : esp_rmaker_param_t) (val : bool)
| MSensor (level : Z).

Definition sys_step (m : move) (σ : sys) : sys * list event :=
  match m with
  | MLoop =>
      let '(next, st, evs) := loop_step (default LReadSensor (loop_at σ)) (mem σ) in
      (mkSys st next (router_at σ), evs)
  | MRouter =>
      match router_at σ with
      | Some (param, val, pc) =>
          let '(next, st, evs) := router_step param val pc (mem σ) in
          (mkSys st (loop_at σ) (option_map (fun pc' => (param, val, pc')) next), evs)
      | None => (σ, [])
      end
  | MWrite device param val =>
      match router_at σ with
      | Some _ => (σ, [])
      | None =>
          (mkSys (mem σ) (loop_at σ)
                 (option_map (fun pc => (param, val, pc)) (router_entry device param)), [])
      end
  | MSensor level =>
      (mkSys (with_gpio_level (<[IR_SENSOR_GPIO := level]> (gpio_level (mem σ))) (mem σ))
             (loop_at σ) (router_at σ), [])
  end.

Fixpoint sys_run (ms : list move) (σ : sys) : sys * list event :=
  match ms with
  | [] => (σ, [])
  | m :: rest =>
      let '(σ1, e1) := sys_step m σ in
      let '(σ2, e2) := sys_run rest σ1 in
      (σ2, e1 ++ e2)
  end.

(** The system as the polling loop starts, both tasks idle. *)
Definition sys_boot (fault : gset Z) (lines : gmap Z Z) : sys :=
  mkSys (boot fault lines) None None.

(** The claim of an invariant at the boundaries between iterations. *)
Definition alert_invariant_at_tick_boundary (σ : sys) : Prop :=
  loop_at σ = None ->
  AlertActive (mem σ) = true ->
  AlarmArmed (mem σ) = true /\ DoorState (mem σ) = OPEN.

(** What holds of the shared state at every moment of every execution. *)
Definition mem_inv (st : state) : Prop :=
  params_created st /\
  (cloud st !! alarm_trigger_handle = Some (esp_rmaker_bool true) ->
   previous_sensor_state st = 1) /\
  (notification_sent st = true -> previous_sensor_state st = 1).

(** What holds of the shared state while the polling task stands at [pc]. *)
Definition loop_fact (pc : loop_pc) (st : state) : Prop :=
  match pc with
  | LOpenDiag s | LOpenPush s => s = 1
  | LStore s =>
      s = 1 \/ cloud st !! alarm_trigger_handle <> Some (esp_rmaker_bool true)
  | LArmedTest s => previous_sensor_state st = s
  | LAlertPush | LBuzzerOn | LLedReadInv | LLedInv _ | LDelay1 | LLedReadBack
  | LLedBack _ | LDelay2 | LRaise | LRaiseDiag => previous_sensor_state st = 1
  | _ => True
  end.

Definition sys_inv (σ : sys) : Prop :=
  mem_inv (mem σ) /\
  match loop_at σ with Some pc => loop_fact pc (mem σ) | None => True end /\
  match router_at σ with
  | Some (param, _, _) => esp_rmaker_param_get_name param = "Power"
  | None => True
  end.

(** The part of an iteration after the door handling. *)
Definition ir_sensor_iteration_tail (sensor_value : Z) : M unit :=
  c <- alarm_behavior sensor_value;;
  match c with
  | LoopContinue => ret tt
  | LoopFallThrough => vTaskDelay 200
  end.

(** The polling task running alone until the iteration it is in (or
    begins, when it is between two) is over, for at most [fuel] steps; and
    the same for the call in progress. *)
Fixpoint sys_loop_alone (fuel : nat) (σ : sys) : sys * list event :=
  match fuel with
  | O => (σ, [])
  | S fuel' =>
      let '(σ1, e1) := sys_step MLoop σ in
      match loop_at σ1 with
      | None => (σ1, e1)
      | Some _ => let '(σ2, e2) := sys_loop_alone fuel' σ1 in (σ2, e1 ++ e2)
      end
  end.

Fixpoint sys_router_alone (fuel : nat) (σ : sys) : sys * list event :=
  match fuel with
  | O => (σ, [])
  | S fuel' =>
      let '(σ1, e1) := sys_step MRouter σ in
      match router_at σ1 with
      | None => (σ1, e1)
      | Some _ => let '(σ2, e2) := sys_router_alone fuel' σ1 in (σ2, e1 ++ e2)
      end
  end.

(** The moves of a write that arrives and runs to its return. *)
Definition arming_call : list move :=
  MWrite "Alarm System" ("Alarm System", "Power") true :: List.repeat MRouter 4.
Definition disarming_call : list move :=
  MWrite "Alarm System" ("Alarm System", "Power") false :: List.repeat MRouter 9.
Definition light_on_call : list move :=
  MWrite "Home Light" ("Home Light", "Power") true :: List.repeat MRouter 4.

(** The consequence the specification draws for a disarm and re-arm with
    the sensor reading open throughout [acts]. *)
Definition rearm_is_silent (st : state) (acts : list action) : Prop :=
  line IR_SENSOR_GPIO st = 1 ->
  forallb keeps_open acts = true ->
  count_events is_door_opened_push (events_of (run acts st)) = 0%nat /\
  count_events is_raise_alert (events_of (run acts st)) = 0%nat.

(** ** Symbolic execution of the firmware *)

Lemma strcmp_zero (a b : string) : strcmp a b = 0 <-> a = b.
Proof.
  unfold strcmp. destruct (String.compare a b) eqn:E.
  - apply String.compare_eq_iff in E. tauto.
  - split; [lia | intros ->]. pose proof (String.compare_antisym b b) as A.
    rewrite E in A. discriminate A.
  - split; [lia | intros ->]. pose proof (String.compare_antisym b b) as A.
    rewrite E in A. discriminate A.
Qed.

(** Unfold the firmware's functions and the monad down to state passing. *)
Ltac fw_unfold :=
  unfold perform, ir_sensor_iteration, door_state_handling, alarm_behavior,
    write_cb, app_driver_set_gpio, update_if_set, esp_rmaker_param_update,
    esp_rmaker_device_get_name, esp_rmaker_param_get_name,
    esp_rmaker_raise_alert, gpio_set_level, gpio_get_level, vTaskDelay,
    ESP_DIAG_EVENT, ESP_LOGW, bind, ret, get, modify, emit,
    result_of, state_of, events_of.

(** Split on the next condition the code tests: a string or integer
    comparison, a faulty line, a [NULL] handle, a flag. *)
Ltac fw_case :=
  match goal with
  | |- context [Z.eqb (strcmp ?a ?b) 0] =>
      let E := fresh "E" in
      destruct (Z.eqb_spec (strcmp a b) 0) as [E|E];
      [apply strcmp_zero in E | rewrite strcmp_zero in E]
  | |- context [Z.eqb ?a ?b] => destruct (Z.eqb_spec a b)
  | |- context [decide (?x ∈ ?s)] => destruct (decide (x ∈ s))
  | |- context [match ?o with Some _ => _ | None => _ end] => is_var o; destruct o
  | |- context [if ?b then _ else _] => is_var b; destruct b
  | |- context [negb ?b] => is_var b; destruct b
  end.

(** Unfold the field updates, to compare two states field by field. *)
Ltac fw_state :=
  unfold with_alarm_enabled, with_led_state, with_door_status_param,
    with_alarm_trigger_param, with_previous_sensor_state,
    with_notification_sent, with_gpio_level, with_cloud; cbn.

(** Run one function of the firmware through all its branches. *)
Ltac fw_run :=
  fw_unfold; cbn in *; subst; cbn;
  repeat (fw_case; cbn in *; subst; try contradiction; try lia; try congruence).

(** A tick is the door handling on the reading, then the alarm behaviour
    on the same reading, then the tail delay unless the body ended by
    [continue]. *)
Lemma ir_sensor_iteration_phases (st : state) :
  let s := line IR_SENSOR_GPIO st in
  let r1 := door_state_handling s st in
  let r2 := alarm_behavior s (state_of r1) in
  state_of (ir_sensor_iteration st) = state_of r2 /\
  events_of (ir_sensor_iteration st) =
    events_of r1 ++ events_of r2 ++
    match result_of r2 with
    | LoopContinue => []
    | LoopFallThrough => [EvDelay 200]
    end.
Proof.
  intros s r1 r2. subst r2 r1 s.
  unfold ir_sensor_iteration, gpio_get_level, line, bind, get, ret, vTaskDelay,
    emit, state_of, events_of, result_of.
  cbv beta iota zeta.
  destruct (door_state_handling _ st) as [[[] st1] e1]. cbn [fst snd].
  destruct (alarm_behavior _ st1) as [[c st2] e2]. cbn [fst snd].
  destruct c; cbn [fst snd]; rewrite ?app_nil_r; auto.
Qed.

Lemma handles_distinct : door_status_handle <> alarm_trigger_handle.
Proof. discriminate. Qed.

Lemma power_not_door_status (param : esp_rmaker_param_t) :
  esp_rmaker_param_get_name param = "Power" -> param <> door_status_handle.
Proof. intros H ->. discriminate H. Qed.

Lemma power_not_alarm_trigger (param : esp_rmaker_param_t) :
  esp_rmaker_param_get_name param = "Power" -> param <> alarm_trigger_handle.
Proof. intros H ->. discriminate H. Qed.

Create HintDb fw.
Local Hint Resolve handles_distinct power_not_door_status power_not_alarm_trigger : fw.

(** Read a sink value or a line level back after the pushes and writes. *)
Ltac fw_lookup :=
  repeat first
    [ rewrite lookup_insert_eq
    | rewrite lookup_insert_ne by (auto with fw; congruence || (intro; auto with fw; discriminate)) ].

Lemma door_state_handling_edge (st : state) (s : Z) :
  params_created st -> s <> previous_sensor_state st ->
  let r := door_state_handling s st in
  previous_sensor_state (state_of r) = s /\
  notification_sent (state_of r) = false /\
  events_of r = door_events s /\
  DoorStatus (state_of r) =
    Some (esp_rmaker_str (if s =? 1 then "OPENED" else "CLOSED")) /\
  (s <> 1 -> AlertActive (state_of r) = false).
Proof.
  intros [Hd Ha] Hne r. subst r. destruct st. unfold door_events, DoorStatus, AlertActive.
  fw_run. all: repeat split; try reflexivity; try congruence; fw_lookup; try reflexivity.
Qed.

Lemma door_state_handling_same (st : state) :
  door_state_handling (previous_sensor_state st) st = (tt, st, []).
Proof. unfold door_state_handling, bind, get, ret. rewrite Z.eqb_refl. reflexivity. Qed.

(** A tick on an unchanged reading is the alarm behaviour alone. *)
Lemma ir_sensor_iteration_no_edge (st : state) :
  line IR_SENSOR_GPIO st = previous_sensor_state st ->
  let r2 := alarm_behavior (line IR_SENSOR_GPIO st) st in
  state_of (ir_sensor_iteration st) = state_of r2 /\
  events_of (ir_sensor_iteration st) =
    events_of r2 ++
    match result_of r2 with
    | LoopContinue => []
    | LoopFallThrough => [EvDelay 200]
    end.
Proof.
  intros Hs. destruct (ir_sensor_iteration_phases st) as [P1 P2].
  rewrite Hs in P1, P2 |- *. rewrite door_state_handling_same in P1, P2.
  exact (conj P1 P2).
Qed.

(** What the alarm behaviour leaves alone: the stored reading, both flags,
    both handles, the faulty lines and the sensor line. *)
Lemma alarm_behavior_frame (s : Z) (st : state) :
  let st' := state_of (alarm_behavior s st) in
  previous_sensor_state st' = previous_sensor_state st /\
  alarm_enabled st' = alarm_enabled st /\
  led_state st' = led_state st /\
  door_status_param st' = door_status_param st /\
  alarm_trigger_param st' = alarm_trigger_param st /\
  gpio_fault st' = gpio_fault st /\
  line IR_SENSOR_GPIO st' = line IR_SENSOR_GPIO st.
Proof.
  destruct st. unfold line. fw_run; repeat split; fw_lookup; reflexivity.
Qed.

(** ** The edge detector *)

(** C6. On a tick whose sensor reading differs from the stored previous
    reading (the boot value -1 included), the stored reading becomes the new
    one, the new door status is pushed to the sink (after the diagnostic
    event), NotificationSent is reset to false by the door handling, and on
    a reading other than open the push of AlertActive=false follows; these
    are the first calls of the tick. *)
Theorem edge_detection_on_changed_reading (st : state) :
  params_created st ->
  line IR_SENSOR_GPIO st <> previous_sensor_state st ->
  let s := line IR_SENSOR_GPIO st in
  let edge := door_state_handling s st in
  let tick := ir_sensor_iteration st in
  previous_sensor_state (state_of edge) = s /\
  previous_sensor_state (state_of tick) = s /\
  DoorState (state_of tick) = (if s =? 1 then OPEN else if s =? -1 then UNKNOWN else CLOSED) /\
  notification_sent (state_of edge) = false /\
  events_of edge = door_events s /\
  In (EvParamUpdate door_status_handle
        (esp_rmaker_str (if s =? 1 then "OPENED" else "CLOSED"))) (events_of edge) /\
  DoorStatus (state_of edge) =
    Some (esp_rmaker_str (if s =? 1 then "OPENED" else "CLOSED")) /\
  (s <> 1 ->
     In (EvParamUpdate alarm_trigger_handle (esp_rmaker_bool false)) (events_of edge) /\
     AlertActive (state_of edge) = false) /\
  (exists rest, events_of tick = door_events s ++ rest).
Proof.
  intros Hp Hne s edge tick.
  destruct (door_state_handling_edge st s Hp Hne) as (E1 & E2 & E3 & E4 & E5).
  fold edge in E1, E2, E3, E4, E5.
  destruct (ir_sensor_iteration_phases st) as [P1 P2].
  fold s in P1, P2. fold edge in P1, P2. fold tick in P1, P2.
  assert (Hprev : previous_sensor_state (state_of tick) = s).
  { rewrite P1, <- E1. apply alarm_behavior_frame. }
  repeat split; auto.
  - unfold DoorState. rewrite Hprev. reflexivity.
  - rewrite E3. unfold door_events. destruct (s =? 1); cbn; auto.
  - rewrite E3. unfold door_events. destruct (Z.eqb_spec s 1); [contradiction|].
    cbn; auto.
  - rewrite P2, E3. eexists. reflexivity.
Qed.

Lemma edge_detection_on_changed_reading_witness :
  let st := boot ∅ ∅ in
  previous_sensor_state (state_of (ir_sensor_iteration st)) = 0 /\
  events_of (door_state_handling 0 st) = door_events 0.
Proof.
  assert (Hp : params_created (boot ∅ ∅)) by (split; reflexivity).
  assert (Hne : line IR_SENSOR_GPIO (boot ∅ ∅) <> previous_sensor_state (boot ∅ ∅))
    by (vm_compute; discriminate).
  pose proof (edge_detection_on_changed_reading (boot ∅ ∅) Hp Hne) as H.
  cbv zeta in H. destruct H as (_ & H2 & _ & _ & H5 & _).
  split; [exact H2 | exact H5].
Defined.

(** ** The armed state with the door open *)

Lemma alarm_behavior_armed_open (st : state) :
  params_created st -> alarm_enabled st = true ->
  let r := alarm_behavior 1 st in
  result_of r = LoopContinue /\
  events_of r = alert_events (led_state st) (notification_sent st) /\
  notification_sent (state_of r) = true /\
  AlertActive (state_of r) = true /\
  (BUZZER_GPIO ∉ gpio_fault st -> line BUZZER_GPIO (state_of r) = 1) /\
  (LED_GPIO ∉ gpio_fault st ->
   line LED_GPIO (state_of r) = level_of_bool (led_state st)).
Proof.
  intros [Hd Ha] He r. subst r. destruct st.
  unfold alert_events, AlertActive, line.
  fw_run; repeat split; intros; fw_lookup; try reflexivity; try contradiction.
Qed.

Lemma door_state_handling_latch (s : Z) (st : state) :
  let st' := state_of (door_state_handling s st) in
  alarm_enabled st' = alarm_enabled st /\
  led_state st' = led_state st /\
  door_status_param st' = door_status_param st /\
  alarm_trigger_param st' = alarm_trigger_param st /\
  gpio_fault st' = gpio_fault st /\
  gpio_level st' = gpio_level st /\
  previous_sensor_state st' = s /\
  (notification_sent st = false -> notification_sent st' = false) /\
  (s <> previous_sensor_state st -> notification_sent st' = false) /\
  (s = previous_sensor_state st -> notification_sent st' = notification_sent st).
Proof.
  destruct st. fw_run; repeat split; intros; try reflexivity; try congruence.
Qed.

Lemma door_state_handling_no_alert_no_delay (s : Z) (st : state) :
  forall e, In e (events_of (door_state_handling s st)) ->
            is_raise_alert e = false /\ e <> EvDelay 200.
Proof.
  destruct st. fw_run; intros ev Hin; cbn in Hin; intuition (subst; try reflexivity; discriminate).
Qed.

Lemma count_events_app (f : event -> bool) (l1 l2 : list event) :
  count_events f (l1 ++ l2) = (count_events f l1 + count_events f l2)%nat.
Proof. unfold count_events. rewrite List.filter_app, length_app. reflexivity. Qed.

Lemma count_events_none (f : event -> bool) (l : list event) :
  (forall e, In e l -> f e = false) -> count_events f l = 0%nat.
Proof.
  unfold count_events. induction l as [|e l IH]; intros H; [reflexivity|].
  cbn. rewrite (H e) by (left; reflexivity). apply IH. intros e' He'. apply H. right. exact He'.
Qed.

(** C2. On a tick with AlarmArmed true and the sensor reading open, after
    the door handling the state machine pushes AlertActive=true, drives the
    buzzer on, drives the LED to the inverse of LightState, waits 150 ms,
    drives the LED back to LightState, waits 150 ms, and then raises the
    external alert unless the notification latch is set; the latch is set
    afterwards. If NotificationSent was false when the tick began exactly
    one alert is raised, never more than one otherwise, and the tail 200 ms
    delay is not executed. *)
Theorem armed_open_tick (st : state) :
  params_created st ->
  alarm_enabled st = true ->
  line IR_SENSOR_GPIO st = 1 ->
  let edge := door_state_handling 1 st in
  let tick := ir_sensor_iteration st in
  events_of tick =
    events_of edge ++
    alert_events (led_state st) (notification_sent (state_of edge)) /\
  In (EvParamUpdate alarm_trigger_handle (esp_rmaker_bool true)) (events_of tick) /\
  AlertActive (state_of tick) = true /\
  In (EvGpioSet BUZZER_GPIO 1) (events_of tick) /\
  (BUZZER_GPIO ∉ gpio_fault st -> line BUZZER_GPIO (state_of tick) = 1) /\
  (LED_GPIO ∉ gpio_fault st ->
   line LED_GPIO (state_of tick) = level_of_bool (led_state st)) /\
  (notification_sent st = false ->
   count_events is_raise_alert (events_of tick) = 1%nat) /\
  (count_events is_raise_alert (events_of tick) <= 1)%nat /\
  notification_sent (state_of tick) = true /\
  ~ In (EvDelay 200) (events_of tick).
Proof.
  intros Hp He Hs edge tick.
  destruct (ir_sensor_iteration_phases st) as [P1 P2].
  rewrite Hs in P1, P2. fold edge in P1, P2. fold tick in P1, P2.
  pose proof (door_state_handling_latch 1 st) as L. fold edge in L.
  destruct L as (L1 & L2 & L3 & L4 & L5 & L6 & L7 & L8 & L9 & L10).
  assert (Hp' : params_created (state_of edge)).
  { destruct Hp as [Hd Ha]. split; congruence. }
  assert (He' : alarm_enabled (state_of edge) = true) by congruence.
  destruct (alarm_behavior_armed_open (state_of edge) Hp' He')
    as (A1 & A2 & A3 & A4 & A5 & A6).
  rewrite A1, A2, app_nil_r, L2 in P2.
  assert (Hnone : count_events is_raise_alert (events_of edge) = 0%nat).
  { apply count_events_none. intros e Hin.
    apply (door_state_handling_no_alert_no_delay 1 st e Hin). }
  split; [exact P2|].
  split; [rewrite P2; apply in_or_app; right; cbn; auto|].
  split; [rewrite P1; exact A4|].
  split; [rewrite P2; apply in_or_app; right; cbn; auto|].
  split; [intros Hf; rewrite P1; apply A5; congruence|].
  split; [intros Hf; rewrite P1, A6, L2 by congruence; reflexivity|].
  split; [intros Hn; rewrite P2, count_events_app, Hnone, (L8 Hn); reflexivity|].
  split; [rewrite P2, count_events_app, Hnone;
          destruct (notification_sent (state_of edge)); cbn; lia|].
  split; [rewrite P1; exact A3|].
  rewrite P2. intros Hin. apply in_app_or in Hin. destruct Hin as [Hin|Hin].
  - apply (door_state_handling_no_alert_no_delay 1 st _ Hin). reflexivity.
  - unfold alert_events in Hin. destruct (notification_sent (state_of edge));
      cbn in Hin; intuition discriminate.
Qed.

Lemma armed_open_tick_witness :
  let st := state_of (run [Write "Alarm System" ("Alarm System", "Power") true; Sensor 1]
                          (boot ∅ ∅)) in
  count_events is_raise_alert (events_of (ir_sensor_iteration st)) = 1%nat /\
  notification_sent (state_of (ir_sensor_iteration st)) = true.
Proof.
  intros st.
  assert (Hp : params_created st) by (split; reflexivity).
  assert (He : alarm_enabled st = true) by reflexivity.
  assert (Hs : line IR_SENSOR_GPIO st = 1) by reflexivity.
  pose proof (armed_open_tick st Hp He Hs) as H. cbv zeta in H.
  destruct H as (_ & _ & _ & _ & _ & _ & H7 & _ & H9 & _).
  split; [apply H7; reflexivity | exact H9].
Defined.

(** ** The disarmed state *)

Lemma insert_pair_again {K V : Type} `{Countable K} (m : gmap K V) (i j : K) (x y : V) :
  <[i := x]> (<[j := y]> (<[i := x]> (<[j := y]> m))) = <[i := x]> (<[j := y]> m).
Proof.
  apply map_eq. intros k.
  destruct (decide (k = i)) as [->|Hi].
  - rewrite !lookup_insert_eq. reflexivity.
  - rewrite !(lookup_insert_ne _ i k) by congruence.
    destruct (decide (k = j)) as [->|Hj].
    + rewrite !lookup_insert_eq. reflexivity.
    + rewrite !lookup_insert_ne by congruence. reflexivity.
Qed.

Lemma alarm_behavior_disarmed (s : Z) (st : state) :
  params_created st -> alarm_enabled st = false ->
  let r := alarm_behavior s st in
  result_of r = LoopFallThrough /\
  events_of r = reset_events (led_state st) /\
  DoorStatus (state_of r) = Some (esp_rmaker_str "CLOSED") /\
  AlertActive (state_of r) = false /\
  (BUZZER_GPIO ∉ gpio_fault st -> line BUZZER_GPIO (state_of r) = 0) /\
  (LED_GPIO ∉ gpio_fault st ->
   line LED_GPIO (state_of r) = level_of_bool (led_state st)) /\
  notification_sent (state_of r) = notification_sent st.
Proof.
  intros [Hd Ha] He r. subst r. destruct st.
  unfold reset_events, DoorStatus, AlertActive, line.
  fw_run; repeat split; intros; fw_lookup; try reflexivity; try contradiction.
Qed.

Lemma alarm_behavior_disarmed_state (s : Z) (st : state) :
  alarm_enabled st = false -> state_of (alarm_behavior s st) = reset_state st.
Proof.
  intros He. destruct st. unfold reset_state, push, drive.
  fw_run; reflexivity.
Qed.

Lemma reset_state_mk en led dsp atp prev sent lv fault cl :
  reset_state (mkState en led dsp atp prev sent lv fault cl) =
  mkState en led dsp atp prev sent
    ((if decide (LED_GPIO ∈ fault) then id else <[LED_GPIO := level_of_bool led]>)
       ((if decide (BUZZER_GPIO ∈ fault) then id else <[BUZZER_GPIO := 0]>) lv))
    fault
    (match atp with Some h => <[h := esp_rmaker_bool false]> | None => id end
       (match dsp with Some h => <[h := esp_rmaker_str "CLOSED"]> | None => id end cl)).
Proof.
  unfold reset_state, push, drive. destruct dsp, atp; cbn;
    repeat (match goal with
            | |- context [decide (?x ∈ ?f)] => destruct (decide (x ∈ f)); try contradiction
            end; cbn);
    reflexivity.
Qed.

Lemma reset_state_again (st : state) : reset_state (reset_state st) = reset_state st.
Proof.
  destruct st as [en led dsp atp prev sent lv fault cl].
  rewrite !reset_state_mk. f_equal.
  - destruct (decide (LED_GPIO ∈ fault)), (decide (BUZZER_GPIO ∈ fault)); unfold id;
      try reflexivity; try apply insert_pair_again; apply insert_insert_eq.
  - destruct atp, dsp; unfold id;
      try reflexivity; try apply insert_pair_again; apply insert_insert_eq.
Qed.

(** The reset applied to a state it has just been applied to changes
    nothing, whatever the two readings were. *)
Lemma alarm_behavior_disarmed_again (s1 s2 : Z) (st : state) :
  alarm_enabled st = false ->
  state_of (alarm_behavior s2 (state_of (alarm_behavior s1 st))) =
  state_of (alarm_behavior s1 st).
Proof.
  intros He.
  assert (He' : alarm_enabled (state_of (alarm_behavior s1 st)) = false).
  { rewrite <- He. apply alarm_behavior_frame. }
  rewrite (alarm_behavior_disarmed_state s2 _ He').
  rewrite (alarm_behavior_disarmed_state s1 _ He).
  apply reset_state_again.
Qed.

(** C7. On a tick with AlarmArmed false, whatever the door state, the state
    machine pushes DoorStatus=CLOSED and AlertActive=false, drives the buzzer
    off and the LED to LightState, then takes the 200 ms delay. A second such
    tick right after the first makes the same four calls and the delay and
    leaves the whole state (flags, stored reading, latch, lines and sink
    values) exactly as the first tick left it. *)
Theorem disarmed_tick_resets_and_is_idempotent (st : state) :
  params_created st ->
  alarm_enabled st = false ->
  let s := line IR_SENSOR_GPIO st in
  let tick := ir_sensor_iteration st in
  let again := ir_sensor_iteration (state_of tick) in
  events_of tick =
    events_of (door_state_handling s st) ++
    reset_events (led_state st) ++ [EvDelay 200] /\
  DoorStatus (state_of tick) = Some (esp_rmaker_str "CLOSED") /\
  AlertActive (state_of tick) = false /\
  (BUZZER_GPIO ∉ gpio_fault st -> line BUZZER_GPIO (state_of tick) = 0) /\
  (LED_GPIO ∉ gpio_fault st ->
   line LED_GPIO (state_of tick) = level_of_bool (led_state st)) /\
  state_of again = state_of tick /\
  events_of again = reset_events (led_state st) ++ [EvDelay 200].
Proof.
  intros Hp He s tick again.
  destruct (ir_sensor_iteration_phases st) as [P1 P2].
  fold s in P1, P2. fold tick in P1, P2.
  pose proof (door_state_handling_latch s st) as L.
  destruct L as (L1 & L2 & L3 & L4 & L5 & L6 & L7 & _).
  set (st1 := state_of (door_state_handling s st)) in *.
  assert (Hp1 : params_created st1).
  { destruct Hp as [Hd Ha]. split; congruence. }
  assert (He1 : alarm_enabled st1 = false) by congruence.
  destruct (alarm_behavior_disarmed s st1 Hp1 He1) as (A1 & A2 & A3 & A4 & A5 & A6 & _).
  rewrite A1, A2, L2 in P2.
  pose proof (alarm_behavior_frame s st1) as F. cbv zeta in F. rewrite <- P1 in F.
  destruct F as (F1 & F2 & F3 & F4 & F5 & F6 & F7).
  assert (Hs2 : line IR_SENSOR_GPIO (state_of tick) = s).
  { rewrite F7. unfold line. rewrite L6. reflexivity. }
  assert (Hprev2 : previous_sensor_state (state_of tick) = s) by congruence.
  assert (Hne : line IR_SENSOR_GPIO (state_of tick) =
                previous_sensor_state (state_of tick)) by congruence.
  destruct (ir_sensor_iteration_no_edge (state_of tick) Hne) as [Q1 Q2].
  fold again in Q1, Q2. rewrite Hs2 in Q1, Q2.
  assert (Hp2 : params_created (state_of tick)).
  { destruct Hp1 as [Hd Ha]. split; congruence. }
  assert (He2 : alarm_enabled (state_of tick) = false) by congruence.
  destruct (alarm_behavior_disarmed s (state_of tick) Hp2 He2) as (B1 & B2 & _).
  rewrite B1, B2, F3, L2 in Q2.
  split; [exact P2|].
  split; [rewrite P1; exact A3|].
  split; [rewrite P1; exact A4|].
  split; [intros Hf; rewrite P1; apply A5; congruence|].
  split; [intros Hf; rewrite P1, A6 by congruence; congruence|].
  split; [|exact Q2].
  rewrite Q1, P1. apply alarm_behavior_disarmed_again. exact He1.
Qed.

Lemma disarmed_tick_resets_and_is_idempotent_witness :
  let st := state_of (run [Sensor 1] (boot ∅ ∅)) in
  state_of (ir_sensor_iteration (state_of (ir_sensor_iteration st))) =
  state_of (ir_sensor_iteration st) /\
  DoorStatus (state_of (ir_sensor_iteration st)) = Some (esp_rmaker_str "CLOSED").
Proof.
  intros st.
  assert (Hp : params_created st) by (split; reflexivity).
  assert (He : alarm_enabled st = false) by reflexivity.
  pose proof (disarmed_tick_resets_and_is_idempotent st Hp He) as H. cbv zeta in H.
  destruct H as (_ & H2 & _ & _ & _ & H6 & _).
  split; [exact H6 | exact H2].
Defined.

(** ** The command router *)

(** What a write never touches: the locals of the polling task, the
    handles, the faulty lines and the sensor line. *)
Lemma write_cb_frame (device : esp_rmaker_device_t) (param : esp_rmaker_param_t)
      (val : bool) (st : state) :
  let st' := state_of (write_cb device param val st) in
  previous_sensor_state st' = previous_sensor_state st /\
  notification_sent st' = notification_sent st /\
  door_status_param st' = door_status_param st /\
  alarm_trigger_param st' = alarm_trigger_param st /\
  gpio_fault st' = gpio_fault st /\
  line IR_SENSOR_GPIO st' = line IR_SENSOR_GPIO st.
Proof.
  destruct st. unfold line. fw_run; repeat split; fw_lookup; reflexivity.
Qed.

(** C5. A write of false to (Alarm System, Power) while AlarmArmed is true
    clears AlarmArmed and, within the same call, pushes DoorStatus=CLOSED and
    AlertActive=false, drives the buzzer off and the LED to LightState, and
    only then echoes the written value to the written parameter; the call
    returns ESP_OK. The sensor is not read: the calls are the same whatever
    level the sensor line has, and the stored previous reading is kept. *)
Theorem disarm_write_resets_synchronously (st : state)
        (device : esp_rmaker_device_t) (param : esp_rmaker_param_t) :
  params_created st ->
  alarm_enabled st = true ->
  esp_rmaker_device_get_name device = "Alarm System" ->
  esp_rmaker_param_get_name param = "Power" ->
  let r := write_cb device param false st in
  result_of r = ESP_OK /\
  alarm_enabled (state_of r) = false /\
  events_of r = disarm_events param (led_state st) /\
  DoorStatus (state_of r) = Some (esp_rmaker_str "CLOSED") /\
  AlertActive (state_of r) = false /\
  (BUZZER_GPIO ∉ gpio_fault st -> line BUZZER_GPIO (state_of r) = 0) /\
  (LED_GPIO ∉ gpio_fault st ->
   line LED_GPIO (state_of r) = level_of_bool (led_state st)) /\
  led_state (state_of r) = led_state st /\
  cloud (state_of r) !! param = Some (esp_rmaker_bool false) /\
  previous_sensor_state (state_of r) = previous_sensor_state st /\
  (forall level,
     events_of (write_cb device param false (state_of (perform (Sensor level) st))) =
     events_of r).
Proof.
  intros [Hd Ha] He Hdev Hpar r. subst r.
  destruct param as [pd pn]. unfold esp_rmaker_device_get_name in Hdev.
  unfold esp_rmaker_param_get_name in Hpar. cbn in Hpar. subst device pn.
  assert (N1 : (pd, "Power") <> door_status_handle) by discriminate.
  assert (N2 : (pd, "Power") <> alarm_trigger_handle) by discriminate.
  destruct st. unfold disarm_events, reset_events, DoorStatus, AlertActive, line.
  fw_run; repeat split; intros; fw_lookup; try reflexivity; try contradiction.
Qed.

Lemma disarm_write_resets_synchronously_witness :
  let st := state_of (run [Write "Alarm System" ("Alarm System", "Power") true;
                           Sensor 1; Tick] (boot ∅ ∅)) in
  let r := write_cb "Alarm System" ("Alarm System", "Power") false st in
  AlertActive st = true /\ line BUZZER_GPIO st = 1 /\
  AlertActive (state_of r) = false /\ line BUZZER_GPIO (state_of r) = 0 /\
  events_of r = disarm_events ("Alarm System", "Power") false.
Proof.
  intros st r.
  assert (Hp : params_created st) by (split; reflexivity).
  assert (He : alarm_enabled st = true) by reflexivity.
  pose proof (disarm_write_resets_synchronously st "Alarm System"
                ("Alarm System", "Power") Hp He eq_refl eq_refl) as H.
  cbv zeta in H. fold r in H.
  destruct H as (_ & _ & H3 & _ & H5 & H6 & _).
  split; [reflexivity|]. split; [reflexivity|]. split; [exact H5|].
  split; [apply H6; vm_compute; set_solver | exact H3].
Defined.

(** C9. A write whose (device, parameter) names are neither (Home Light,
    Power) nor (Alarm System, Power) changes nothing, makes no call (so no
    push to the sink) and returns ESP_OK. *)
Theorem unrecognized_write_is_noop (st : state)
        (device : esp_rmaker_device_t) (param : esp_rmaker_param_t) (val : bool) :
  ~ (esp_rmaker_device_get_name device = "Home Light" /\
     esp_rmaker_param_get_name param = "Power") ->
  ~ (esp_rmaker_device_get_name device = "Alarm System" /\
     esp_rmaker_param_get_name param = "Power") ->
  write_cb device param val st = (ESP_OK, st, []).
Proof.
  intros H1 H2. unfold write_cb.
  destruct (Z.eqb_spec (strcmp (esp_rmaker_device_get_name device) "Home Light") 0) as [E1|E1];
  destruct (Z.eqb_spec (strcmp (esp_rmaker_param_get_name param) "Power") 0) as [E2|E2];
  destruct (Z.eqb_spec (strcmp (esp_rmaker_device_get_name device) "Alarm System") 0) as [E3|E3];
  rewrite ?strcmp_zero in *; cbn; try reflexivity; tauto.
Qed.

Lemma unrecognized_write_is_noop_witness :
  write_cb "Door Sensor Status" ("Door Sensor Status", "Door Status") true (boot ∅ ∅)
  = (ESP_OK, boot ∅ ∅, []) /\
  write_cb "Home Light" ("Home Light", "Brightness") true (boot ∅ ∅)
  = (ESP_OK, boot ∅ ∅, []).
Proof.
  split.
  - apply unrecognized_write_is_noop; cbn; intros [H1 H2]; discriminate.
  - apply unrecognized_write_is_noop; cbn; intros [H1 H2]; discriminate.
Defined.

(** ** The light write and the GPIO *)

Lemma app_driver_set_gpio_other (param_name : string) (value : bool) (st : state) :
  param_name <> "Power" -> app_driver_set_gpio param_name value st = (ESP_FAIL, st, []).
Proof.
  intros Hn. unfold app_driver_set_gpio.
  destruct (Z.eqb_spec (strcmp param_name "Power") 0) as [E|E]; [|reflexivity].
  apply strcmp_zero in E. contradiction.
Qed.

Lemma app_driver_set_gpio_power (value : bool) (st : state) :
  let r := app_driver_set_gpio "Power" value st in
  result_of r = ESP_OK /\ led_state (state_of r) = value /\
  events_of r =
    [EvGpioSet LED_GPIO (level_of_bool value);
     EvDiag "LIGHT_ACTION" (String.append "Light Power -> " (if value then "ON" else "OFF"))].
Proof.
  destruct st, value; fw_run; repeat split; reflexivity.
Qed.

(** C8. The router has the branch the specification describes: when
    [app_driver_set_gpio] does not return ESP_OK it logs "Failed to apply
    power for Home Light" and does not echo. The helper never reports a
    failed GPIO write, though: it drops the result of [gpio_set_level], sets
    [led_state] and returns ESP_OK. So on every write to (Home Light, Power)
    the router sets LightState to the written value, echoes it to the written
    parameter, logs no failure and returns ESP_OK, whether or not the LED
    line took the new level (on a faulty line the level stays as it was);
    the helper returns ESP_FAIL only for a parameter name other than Power,
    which the router never passes. The code misses what the specification
    asks for. *)
Theorem light_write_echoes_whatever_the_gpio_does (st : state)
        (device : esp_rmaker_device_t) (param : esp_rmaker_param_t) (val : bool) :
  esp_rmaker_device_get_name device = "Home Light" ->
  esp_rmaker_param_get_name param = "Power" ->
  let r := write_cb device param val st in
  result_of r = ESP_OK /\
  events_of r =
    [EvGpioSet LED_GPIO (level_of_bool val);
     EvDiag "LIGHT_ACTION" (String.append "Light Power -> " (if val then "ON" else "OFF"));
     EvParamUpdate param (esp_rmaker_bool val)] /\
  led_state (state_of r) = val /\
  cloud (state_of r) = <[param := esp_rmaker_bool val]> (cloud st) /\
  (LED_GPIO ∉ gpio_fault st -> line LED_GPIO (state_of r) = level_of_bool val) /\
  (LED_GPIO ∈ gpio_fault st -> line LED_GPIO (state_of r) = line LED_GPIO st) /\
  (forall name value st0,
     name <> "Power" -> app_driver_set_gpio name value st0 = (ESP_FAIL, st0, [])) /\
  (forall value st0, result_of (app_driver_set_gpio "Power" value st0) = ESP_OK).
Proof.
  intros Hdev Hpar r. subst r.
  destruct param as [pd pn]. unfold esp_rmaker_device_get_name in Hdev.
  unfold esp_rmaker_param_get_name in Hpar. cbn in Hpar. subst device pn.
  split; [|split; [|split; [|split; [|split; [|split; [|split]]]]]].
  8: { intros value st0. apply (app_driver_set_gpio_power value st0). }
  7: { intros name value st0 Hn. apply app_driver_set_gpio_other. exact Hn. }
  all: destruct st, val; unfold line; fw_run; intros; fw_lookup;
    try reflexivity; try contradiction.
Qed.

Lemma light_write_echoes_whatever_the_gpio_does_witness :
  let st := boot {[LED_GPIO]} ∅ in
  let r := write_cb "Home Light" ("Home Light", "Power") true st in
  gpio_apply_fails true st /\
  led_state (state_of r) = true /\
  In (EvParamUpdate ("Home Light", "Power") (esp_rmaker_bool true)) (events_of r).
Proof.
  intros st r.
  pose proof (light_write_echoes_whatever_the_gpio_does st "Home Light"
                ("Home Light", "Power") true eq_refl eq_refl) as H.
  cbv zeta in H. fold r in H. destruct H as (_ & H2 & H3 & _).
  split; [vm_compute; discriminate|]. split; [exact H3|].
  rewrite H2. cbn. auto.
Defined.

(** The same at the failing input: with the LED line faulty a write of true
    to (Home Light, Power) is echoed and LightState changes, where the
    specification asks for the warning, no echo and LightState as it was. *)
Lemma light_write_not_atomic_on_gpio_failure :
  ~ light_write_atomic_on_failure (boot {[LED_GPIO]} ∅) ("Home Light", "Power") true.
Proof.
  intros H. destruct H as [H _].
  - vm_compute. discriminate.
  - apply H. vm_compute. auto.
Qed.

(** ** Invariants of executions *)

Lemma run_cons (a : action) (rest : list action) (st : state) :
  state_of (run (a :: rest) st) = state_of (run rest (state_of (perform a st))) /\
  events_of (run (a :: rest) st) =
    events_of (perform a st) ++ events_of (run rest (state_of (perform a st))).
Proof.
  cbn [run]. unfold bind, state_of, events_of.
  destruct (perform a st) as [[[] st1] e1]. cbn [fst snd].
  destruct (run rest st1) as [[[] st2] e2]. cbn [fst snd]. auto.
Qed.

Lemma AlertActive_true (st : state) :
  AlertActive st = true <-> cloud st !! alarm_trigger_handle = Some (esp_rmaker_bool true).
Proof. unfold AlertActive. apply bool_decide_eq_true. Qed.

Lemma inv_boot (fault : gset Z) (lines : gmap Z Z) : inv (boot fault lines).
Proof.
  unfold inv, boot, app_main, app_driver_init, esp_rmaker_param_create,
    ir_sensor_task_entry, power_on.
  rewrite AlertActive_true.
  fw_run; (split; [split; reflexivity|]); split; intros H; discriminate H.
Qed.

Lemma door_state_handling_alert (s : Z) (st : state) :
  params_created st ->
  cloud (state_of (door_state_handling s st)) !! alarm_trigger_handle
    = Some (esp_rmaker_bool true) ->
  cloud st !! alarm_trigger_handle = Some (esp_rmaker_bool true) /\
  (s = previous_sensor_state st \/ s = 1).
Proof.
  intros [Hd Ha]. destruct st. cbn in *. subst.
  fw_run; fw_state; fw_lookup; intros H; try discriminate H; auto.
Qed.

Lemma alarm_behavior_latches (s : Z) (st : state) :
  params_created st ->
  let st' := state_of (alarm_behavior s st) in
  (cloud st' !! alarm_trigger_handle = Some (esp_rmaker_bool true) ->
   alarm_enabled st = true /\
   (s = 1 \/ cloud st !! alarm_trigger_handle = Some (esp_rmaker_bool true))) /\
  (notification_sent st' = true ->
   alarm_enabled st = true /\ s = 1 \/ notification_sent st = true).
Proof.
  intros [Hd Ha]. destruct st. cbn in *. subst.
  fw_run; fw_state; fw_lookup; split; intros H; try discriminate H; auto.
Qed.

Lemma inv_tick (st : state) : inv st -> inv (state_of (ir_sensor_iteration st)).
Proof.
  unfold inv. rewrite !AlertActive_true. intros (Hp & HA & HN).
  destruct (ir_sensor_iteration_phases st) as [P1 _]. rewrite P1. clear P1.
  set (s := line IR_SENSOR_GPIO st).
  pose proof (door_state_handling_latch s st) as L.
  pose proof (door_state_handling_alert s st Hp) as D.
  set (st1 := state_of (door_state_handling s st)) in *.
  destruct L as (L1 & L2 & L3 & L4 & L5 & L6 & L7 & L8 & L9 & L10).
  assert (Hp1 : params_created st1).
  { destruct Hp as [Hd Ha]. split; congruence. }
  pose proof (alarm_behavior_frame s st1) as F.
  pose proof (alarm_behavior_latches s st1 Hp1) as B.
  set (st2 := state_of (alarm_behavior s st1)) in *.
  destruct F as (F1 & F2 & F3 & F4 & F5 & F6 & F7).
  destruct B as (B1 & B2).
  split; [destruct Hp1 as [Hd Ha]; split; congruence|]. split.
  - intros H. destruct (B1 H) as [E [Hs|Hc]].
    + split; congruence.
    + destruct (D Hc) as [Hc0 [Hs|Hs]]; [|split; congruence].
      destruct (HA Hc0) as [_ Hprev]. split; congruence.
  - intros H. destruct (B2 H) as [[E Hs]|Hn]; [congruence|].
    destruct (Z.eq_dec s (previous_sensor_state st)) as [Hs|Hs].
    + rewrite (L10 Hs) in Hn. specialize (HN Hn). congruence.
    + rewrite (L9 Hs) in Hn. discriminate Hn.
Qed.

Lemma inv_write (device : esp_rmaker_device_t) (param : esp_rmaker_param_t)
      (val : bool) (st : state) :
  inv st -> inv (state_of (write_cb device param val st)).
Proof.
  unfold inv. rewrite !AlertActive_true. intros ([Hd Ha] & HA & HN).
  destruct (Z.eqb_spec (strcmp (esp_rmaker_param_get_name param) "Power") 0) as [E|E].
  - apply strcmp_zero in E.
    pose proof (power_not_alarm_trigger param E) as N.
    destruct st. cbn in *. subst.
    fw_run; fw_state; (split; [split; reflexivity|]); fw_lookup;
      split; intros H; try discriminate H; try exact (HA H); try exact (HN H);
      try (split; [reflexivity|]); try reflexivity;
      try (destruct (HA H); congruence); try (specialize (HN H); congruence).
  - unfold write_cb.
    destruct (Z.eqb_spec (strcmp (esp_rmaker_param_get_name param) "Power") 0);
      [contradiction|].
    rewrite !andb_false_r. cbn. rewrite !AlertActive_true || idtac.
    split; [split; assumption|]. split; assumption.
Qed.

Lemma inv_perform (a : action) (st : state) : inv st -> inv (state_of (perform a st)).
Proof.
  destruct a as [|device param val|level]; intros H.
  - apply inv_tick. exact H.
  - unfold perform, bind, ret, state_of.
    pose proof (inv_write device param val st H) as W. unfold state_of in W.
    destruct (write_cb device param val st) as [[r st1] e1]. cbn [fst snd] in *. exact W.
  - unfold inv in *. rewrite !AlertActive_true in *. destruct st. cbn in *. exact H.
Qed.

Lemma inv_run (acts : list action) (st : state) : inv st -> inv (state_of (run acts st)).
Proof.
  revert st. induction acts as [|a rest IH]; intros st H.
  - exact H.
  - rewrite (proj1 (run_cons a rest st)). apply IH. apply inv_perform. exact H.
Qed.

Lemma inv_reachable (st : state) : reachable st -> inv st.
Proof.
  intros (fault & lines & acts & ->). apply inv_run. apply inv_boot.
Qed.

Lemma reachable_params_created (st : state) : reachable st -> params_created st.
Proof. intros Hr. apply (inv_reachable st Hr). Qed.

Lemma DoorState_open (st : state) : DoorState st = OPEN <-> previous_sensor_state st = 1.
Proof.
  unfold DoorState. destruct (Z.eqb_spec (previous_sensor_state st) 1) as [E|E].
  - tauto.
  - destruct (previous_sensor_state st =? -1); split; intros H; congruence.
Qed.

(** ** The notification latch *)



(** ** One alert per open episode *)

Lemma alarm_behavior_counts (s : Z) (st : state) :
  let r := alarm_behavior s st in
  count_events is_door_opened_push (events_of r) = 0%nat /\
  (notification_sent st = true ->
   count_events is_raise_alert (events_of r) = 0%nat /\
   notification_sent (state_of r) = true) /\
  (count_events is_raise_alert (events_of r) = 0%nat \/
   count_events is_raise_alert (events_of r) = 1%nat /\
   notification_sent (state_of r) = true).
Proof.
  destruct st. fw_run; repeat split; intros; try discriminate; try assumption;
    try reflexivity; try (left; reflexivity); try (right; split; reflexivity).
Qed.

Lemma write_cb_counts (device : esp_rmaker_device_t) (param : esp_rmaker_param_t)
      (val : bool) (st : state) :
  let r := write_cb device param val st in
  count_events is_door_opened_push (events_of r) = 0%nat /\
  count_events is_raise_alert (events_of r) = 0%nat.
Proof.
  destruct st. fw_run; split; reflexivity.
Qed.

Lemma count_tail (f : event -> bool) (c : loop_exit) :
  f (EvDelay 200) = false ->
  count_events f match c with
                 | LoopContinue => []
                 | LoopFallThrough => [EvDelay 200]
                 end = 0%nat.
Proof. intros H. destruct c; unfold count_events; cbn; rewrite ?H; reflexivity. Qed.

Lemma perform_in_episode (a : action) (st : state) :
  line IR_SENSOR_GPIO st = 1 -> keeps_open a = true ->
  let r := perform a st in
  line IR_SENSOR_GPIO (state_of r) = 1 /\
  (previous_sensor_state st = 1 ->
   previous_sensor_state (state_of r) = 1 /\
   count_events is_door_opened_push (events_of r) = 0%nat) /\
  (previous_sensor_state st = 1 -> notification_sent st = true ->
   notification_sent (state_of r) = true /\
   count_events is_raise_alert (events_of r) = 0%nat) /\
  (count_events is_raise_alert (events_of r) = 0%nat \/
   count_events is_raise_alert (events_of r) = 1%nat /\
   previous_sensor_state (state_of r) = 1 /\ notification_sent (state_of r) = true).
Proof.
  intros Hs Hk. destruct a as [|device param val|level]; cbn [perform].
  - destruct (ir_sensor_iteration_phases st) as [P1 P2]. rewrite Hs in P1, P2.
    pose proof (door_state_handling_latch 1 st) as L.
    pose proof (door_state_handling_no_alert_no_delay 1 st) as D.
    set (r1 := door_state_handling 1 st) in *.
    destruct L as (L1 & L2 & L3 & L4 & L5 & L6 & L7 & L8 & L9 & L10).
    pose proof (alarm_behavior_frame 1 (state_of r1)) as F.
    pose proof (alarm_behavior_counts 1 (state_of r1)) as C.
    set (r2 := alarm_behavior 1 (state_of r1)) in *.
    destruct F as (F1 & F2 & F3 & F4 & F5 & F6 & F7).
    destruct C as (C1 & C2 & C3).
    assert (D0 : count_events is_raise_alert (events_of r1) = 0%nat).
    { apply count_events_none. intros e He. apply (D e He). }
    assert (HA : count_events is_raise_alert (events_of (ir_sensor_iteration st)) =
                 count_events is_raise_alert (events_of r2)).
    { rewrite P2, !count_events_app, D0, count_tail by reflexivity. lia. }
    cbv zeta. rewrite HA, P1.
    split; [|split; [|split]].
    + rewrite F7. unfold line. rewrite L6. exact Hs.
    + intros Hprev. split; [congruence|].
      assert (E : r1 = (tt, st, [])).
      { unfold r1. rewrite <- Hprev. apply door_state_handling_same. }
      rewrite P2, E, !count_events_app, C1, count_tail by reflexivity. reflexivity.
    + intros Hprev Hn.
      assert (Hn1 : notification_sent (state_of r1) = true).
      { rewrite L10 by congruence. exact Hn. }
      destruct (C2 Hn1) as [Q1 Q2]. split; assumption.
    + destruct C3 as [Q|[Q1 Q2]]; [left; exact Q|].
      right. split; [exact Q1|]. split; [congruence | exact Q2].
  - pose proof (write_cb_frame device param val st) as W.
    pose proof (write_cb_counts device param val st) as C.
    unfold bind, ret, state_of, events_of in *.
    destruct (write_cb device param val st) as [[res st1] e1]. cbn [fst snd] in *.
    rewrite app_nil_r.
    destruct W as (W1 & W2 & W3 & W4 & W5 & W6). destruct C as [C1 C2].
    split; [congruence|]. split; [intros; split; congruence|].
    split; [intros; split; congruence|]. left. exact C2.
  - cbn in Hk. apply Z.eqb_eq in Hk. subst level.
    destruct st. unfold line, modify, state_of, events_of in *. cbn in *.
    rewrite lookup_insert_eq. cbn. repeat split; auto.
Qed.

Lemma run_in_episode (acts : list action) (st : state) :
  line IR_SENSOR_GPIO st = 1 -> forallb keeps_open acts = true ->
  let r := run acts st in
  (previous_sensor_state st = 1 ->
   count_events is_door_opened_push (events_of r) = 0%nat) /\
  (previous_sensor_state st = 1 -> notification_sent st = true ->
   count_events is_raise_alert (events_of r) = 0%nat) /\
  (count_events is_raise_alert (events_of r) <= 1)%nat.
Proof.
  revert st. induction acts as [|a rest IH]; intros st Hs Hk.
  - cbn. unfold count_events. cbn. repeat split; intros; lia.
  - cbn [forallb] in Hk. apply andb_prop in Hk. destruct Hk as [Ha Hrest].
    destruct (run_cons a rest st) as [_ R2]. cbv zeta. rewrite R2, !count_events_app.
    destruct (perform_in_episode a st Hs Ha) as (Q1 & Q2 & Q3 & Q4).
    destruct (IH (state_of (perform a st)) Q1 Hrest) as (I1 & I2 & I3).
    split; [|split].
    + intros Hp. destruct (Q2 Hp) as [Q21 Q22]. rewrite Q22, (I1 Q21). reflexivity.
    + intros Hp Hn. destruct (Q3 Hp Hn) as [Q31 Q32].
      destruct (Q2 Hp) as [Q21 _]. rewrite Q32, (I2 Q21 Q31). reflexivity.
    + destruct Q4 as [Q|(Q & Qp & Qn)].
      * rewrite Q. exact I3.
      * rewrite Q, (I2 Qp Qn). lia.
Qed.

Lemma door_state_handling_edge_latch (s : Z) (b : bool) (st : state) :
  s <> previous_sensor_state st ->
  door_state_handling s (with_notification_sent b st) = door_state_handling s st.
Proof.
  intros Hs. destruct st. cbn in Hs. fw_run; reflexivity.
Qed.

(** C4. The door handling resets NotificationSent to false whenever the
    reading differs from the stored one (opening and closing alike), so a
    tick on a changed reading does not depend on the latch it started with;
    and in any stretch of an execution during which the sensor line stays at
    open, whatever ticks and router writes it contains and whatever state it
    starts from, [esp_rmaker_raise_alert] is called at most once. *)
Theorem notification_reset_and_one_alert_per_episode :
  (forall (st : state) (s : Z),
     s <> previous_sensor_state st ->
     notification_sent (state_of (door_state_handling s st)) = false) /\
  (forall (st : state) (b : bool),
     line IR_SENSOR_GPIO st <> previous_sensor_state st ->
     ir_sensor_iteration (with_notification_sent b st) = ir_sensor_iteration st) /\
  (forall (st : state) (acts : list action),
     line IR_SENSOR_GPIO st = 1 ->
     forallb keeps_open acts = true ->
     (count_events is_raise_alert (events_of (run acts st)) <= 1)%nat).
Proof.
  split; [|split].
  - intros st s Hs. apply (door_state_handling_latch s st). exact Hs.
  - intros st b Hs. unfold ir_sensor_iteration, gpio_get_level, get, bind.
    change (gpio_level (with_notification_sent b st)) with (gpio_level st).
    fold (line IR_SENSOR_GPIO st).
    rewrite (door_state_handling_edge_latch _ b st Hs). reflexivity.
  - intros st acts Hs Hk. apply (run_in_episode acts st Hs Hk).
Qed.

Lemma notification_reset_and_one_alert_per_episode_witness :
  let arm := Write "Alarm System" ("Alarm System", "Power") true in
  let disarm := Write "Alarm System" ("Alarm System", "Power") false in
  let st := state_of (run [arm; Sensor 1] (boot ∅ ∅)) in
  notification_sent (state_of (door_state_handling 1 st)) = false /\
  ir_sensor_iteration (with_notification_sent true st) = ir_sensor_iteration st /\
  (count_events is_raise_alert
     (events_of (run [Tick; Tick; disarm; Tick; arm; Tick; Tick] st)) <= 1)%nat.
Proof.
  intros arm disarm st.
  destruct notification_reset_and_one_alert_per_episode as (H1 & H2 & H3).
  split; [|split].
  - apply H1. vm_compute. discriminate.
  - apply H2. vm_compute. discriminate.
  - apply H3; reflexivity.
Defined.

(** ** Re-arming with the door still open *)

Lemma alarm_behavior_armed_open_latch (st : state) :
  alarm_enabled st = true ->
  notification_sent (state_of (alarm_behavior 1 st)) = true.
Proof.
  intros He. destruct st. cbn in He. subst. fw_run; reflexivity.
Qed.

(** C10, as the specification states it, fails: the door opens with the
    alarm armed and, before any iteration reads the sensor, a disarming
    write comes. With the sensor at open throughout, the disarmed iteration
    that follows pushes DoorStatus OPENED, and the iteration after the
    re-arming raises the alert. *)
Lemma rearm_not_silent_when_opening_unseen :
  let arm := Write "Alarm System" ("Alarm System", "Power") true in
  let disarm := Write "Alarm System" ("Alarm System", "Power") false in
  let st := state_of (run [arm; Tick; Sensor 1] (boot ∅ ∅)) in
  let acts := [disarm; Tick; arm; Tick; Tick] in
  reachable st /\
  count_events is_door_opened_push (events_of (run acts st)) = 1%nat /\
  count_events is_raise_alert (events_of (run acts st)) = 1%nat /\
  ~ rearm_is_silent st acts.
Proof.
  intros arm disarm st acts. split; [exists ∅, ∅; eexists; reflexivity|].
  split; [reflexivity|]. split; [reflexivity|].
  intros H. destruct H as [H _]; [reflexivity | reflexivity |]. discriminate H.
Qed.

(** C10, as the code has it. No router write changes the stored previous
    reading, and neither does the alarm behaviour of an iteration, the
    disarmed reset included. So, from any state whose stored previous
    reading is open, for as long as the sensor line stays at open no
    DoorStatus=OPENED push is made, whatever iterations and writes follow,
    disarming and re-arming among them; and if the alert of this opening has
    been raised (NotificationSent is true) no [esp_rmaker_raise_alert] call
    is made either, and at most one otherwise. In particular both hold once
    an armed iteration has seen the door open. *)
Theorem rearm_with_door_open_is_silent :
  (forall (st : state) device param val,
     previous_sensor_state (state_of (write_cb device param val st)) =
     previous_sensor_state st) /\
  (forall (st : state) (s : Z),
     previous_sensor_state (state_of (alarm_behavior s st)) =
     previous_sensor_state st) /\
  (forall (st : state) (acts : list action),
     line IR_SENSOR_GPIO st = 1 ->
     forallb keeps_open acts = true ->
     previous_sensor_state st = 1 ->
     count_events is_door_opened_push (events_of (run acts st)) = 0%nat /\
     (notification_sent st = true ->
      count_events is_raise_alert (events_of (run acts st)) = 0%nat) /\
     (count_events is_raise_alert (events_of (run acts st)) <= 1)%nat) /\
  (forall (st0 : state) (acts : list action),
     alarm_enabled st0 = true ->
     line IR_SENSOR_GPIO st0 = 1 ->
     forallb keeps_open acts = true ->
     let st := state_of (ir_sensor_iteration st0) in
     count_events is_door_opened_push (events_of (run acts st)) = 0%nat /\
     count_events is_raise_alert (events_of (run acts st)) = 0%nat).
Proof.
  split; [|split; [|split]].
  - intros st device param val. apply write_cb_frame.
  - intros st s. apply alarm_behavior_frame.
  - intros st acts Hl Hk Hprev.
    destruct (run_in_episode acts st Hl Hk) as (R1 & R2 & R3).
    split; [apply R1; exact Hprev|]. split; [|exact R3].
    intros Hn. apply R2; assumption.
  - intros st0 acts He Hs Hk st.
    destruct (ir_sensor_iteration_phases st0) as [P1 _]. rewrite Hs in P1.
    pose proof (door_state_handling_latch 1 st0) as L.
    destruct L as (L1 & L2 & L3 & L4 & L5 & L6 & L7 & _).
    pose proof (alarm_behavior_frame 1 (state_of (door_state_handling 1 st0))) as F.
    destruct F as (F1 & F2 & F3 & F4 & F5 & F6 & F7).
    assert (Hprev : previous_sensor_state st = 1).
    { unfold st. rewrite P1. congruence. }
    assert (Hn : notification_sent st = true).
    { unfold st. rewrite P1. apply alarm_behavior_armed_open_latch. congruence. }
    assert (Hl : line IR_SENSOR_GPIO st = 1).
    { unfold st. rewrite P1, F7. unfold line. rewrite L6. exact Hs. }
    destruct (run_in_episode acts st Hl Hk) as (R1 & R2 & _).
    split; [apply R1; exact Hprev | apply R2; assumption].
Qed.

Lemma rearm_with_door_open_is_silent_witness :
  let arm := Write "Alarm System" ("Alarm System", "Power") true in
  let disarm := Write "Alarm System" ("Alarm System", "Power") false in
  let st0 := state_of (run [arm; Sensor 1] (boot ∅ ∅)) in
  let st := state_of (ir_sensor_iteration st0) in
  let st1 := state_of (run [Sensor 1; Tick] (boot ∅ ∅)) in
  count_events is_raise_alert (events_of (ir_sensor_iteration st0)) = 1%nat /\
  count_events is_door_opened_push (events_of (ir_sensor_iteration st0)) = 1%nat /\
  count_events is_door_opened_push
    (events_of (run [disarm; Tick; arm; Tick; Tick] st)) = 0%nat /\
  count_events is_raise_alert
    (events_of (run [disarm; Tick; arm; Tick; Tick] st)) = 0%nat /\
  count_events is_door_opened_push
    (events_of (run [disarm; Tick; arm; Tick; Tick] st1)) = 0%nat /\
  count_events is_raise_alert
    (events_of (run [disarm; Tick; arm; Tick; Tick] st1)) = 1%nat.
Proof.
  intros arm disarm st0 st st1.
  destruct rearm_with_door_open_is_silent as (_ & _ & G & H).
  assert (A1 : alarm_enabled st0 = true) by reflexivity.
  assert (A2 : line IR_SENSOR_GPIO st0 = 1) by reflexivity.
  assert (A3 : forallb keeps_open [disarm; Tick; arm; Tick; Tick] = true) by reflexivity.
  assert (B1 : line IR_SENSOR_GPIO st1 = 1) by reflexivity.
  assert (B2 : previous_sensor_state st1 = 1) by reflexivity.
  split; [reflexivity|]. split; [reflexivity|].
  destruct (H st0 [disarm; Tick; arm; Tick; Tick] A1 A2 A3) as [H1 H2].
  split; [exact H1|]. split; [exact H2|].
  destruct (G st1 [disarm; Tick; arm; Tick; Tick] B1 A3 B2) as (G1 & _ & _).
  split; [exact G1 | reflexivity].
Defined.

(** ** The polling loop as an execution, and the specification's scenarios *)

Lemma ir_sensor_loop_run (n : nat) : ir_sensor_loop n = run (List.repeat Tick n).
Proof.
  induction n as [|n IH]; [reflexivity|]. cbn [ir_sensor_loop List.repeat run perform].
  rewrite IH. reflexivity.
Qed.

(** Scenario 1: after boot DoorState is UNKNOWN and both flags are false;
    the first tick with the sensor at 0 makes DoorState CLOSED and pushes
    DoorStatus "CLOSED" first. *)
Example scenario_boot_then_closed :
  let st := boot ∅ ∅ in
  let r := ir_sensor_iteration st in
  DoorState st = UNKNOWN /\ AlarmArmed st = false /\ LightState st = false /\
  DoorState (state_of r) = CLOSED /\
  events_of r =
    door_events 0 ++ reset_events false ++ [EvDelay 200].
Proof. vm_compute. repeat split; reflexivity. Qed.

(** Scenarios 2 and 3: arming, then a tick with the sensor at 1, raises one
    alert with the buzzer on; three more ticks raise none. *)
Example scenario_armed_open_then_three_ticks :
  let arm := Write "Alarm System" ("Alarm System", "Power") true in
  let r := run [arm; Sensor 1; Tick] (boot ∅ ∅) in
  let r' := run [Tick; Tick; Tick] (state_of r) in
  DoorState (state_of r) = OPEN /\ AlertActive (state_of r) = true /\
  NotificationSent (state_of r) = true /\ line BUZZER_GPIO (state_of r) = 1 /\
  count_events is_raise_alert (events_of r) = 1%nat /\
  count_events is_raise_alert (events_of r') = 0%nat /\
  NotificationSent (state_of r') = true /\ line BUZZER_GPIO (state_of r') = 1.
Proof. vm_compute. repeat split; reflexivity. Qed.

(** Scenario 4: a disarming write in that state, the sensor still at 1. *)
Example scenario_disarm_with_door_open :
  let arm := Write "Alarm System" ("Alarm System", "Power") true in
  let st := state_of (run [arm; Sensor 1; Tick; Tick; Tick; Tick] (boot ∅ ∅)) in
  let r := write_cb "Alarm System" ("Alarm System", "Power") false st in
  line IR_SENSOR_GPIO st = 1 /\
  events_of r = disarm_events ("Alarm System", "Power") false /\
  DoorStatus (state_of r) = Some (esp_rmaker_str "CLOSED") /\
  AlertActive (state_of r) = false /\
  line BUZZER_GPIO (state_of r) = 0 /\
  line LED_GPIO (state_of r) = level_of_bool (LightState (state_of r)).
Proof. vm_compute. repeat split; reflexivity. Qed.

(** * Further properties of the code *)

(** ** Closed forms of the two phases of a tick *)

Lemma door_state_handling_cloud (s : Z) (st : state) :
  params_created st ->
  cloud (state_of (door_state_handling s st)) =
    if s =? previous_sensor_state st then cloud st
    else if s =? 1 then <[door_status_handle := esp_rmaker_str "OPENED"]> (cloud st)
    else <[alarm_trigger_handle := esp_rmaker_bool false]>
           (<[door_status_handle := esp_rmaker_str "CLOSED"]> (cloud st)).
Proof.
  intros [Hd Ha]. destruct st. cbn in *. subst. fw_run; reflexivity.
Qed.

Lemma alarm_behavior_cloud (s : Z) (st : state) :
  params_created st ->
  cloud (state_of (alarm_behavior s st)) =
    if alarm_enabled st then
      if s =? 1 then <[alarm_trigger_handle := esp_rmaker_bool true]> (cloud st)
      else cloud st
    else <[alarm_trigger_handle := esp_rmaker_bool false]>
           (<[door_status_handle := esp_rmaker_str "CLOSED"]> (cloud st)).
Proof.
  intros [Hd Ha]. destruct st. cbn in *. subst. fw_run; reflexivity.
Qed.

Lemma alarm_behavior_lines (s : Z) (st : state) :
  let st' := state_of (alarm_behavior s st) in
  (BUZZER_GPIO ∉ gpio_fault st ->
   line BUZZER_GPIO st' = if alarm_enabled st && (s =? 1) then 1 else 0) /\
  (LED_GPIO ∉ gpio_fault st -> line LED_GPIO st' = level_of_bool (led_state st)) /\
  (BUZZER_GPIO ∈ gpio_fault st -> line BUZZER_GPIO st' = line BUZZER_GPIO st) /\
  (LED_GPIO ∈ gpio_fault st -> line LED_GPIO st' = line LED_GPIO st).
Proof.
  destruct st. unfold line.
  fw_run; repeat split; intros; fw_lookup; try reflexivity; try contradiction.
Qed.

Lemma alarm_behavior_calls (s : Z) (st : state) :
  let r := alarm_behavior s st in
  result_of r = (if alarm_enabled st && (s =? 1) then LoopContinue else LoopFallThrough) /\
  total_delay (events_of r) = (if alarm_enabled st && (s =? 1) then 300 else 0) /\
  count_events is_raise_alert (events_of r) =
    (if alarm_enabled st && (s =? 1) && negb (notification_sent st) then 1%nat else 0%nat) /\
  notification_sent (state_of r) =
    (alarm_enabled st && (s =? 1)) || notification_sent st.
Proof.
  destruct st. fw_run; repeat split; reflexivity.
Qed.

Lemma door_state_handling_calls (s : Z) (st : state) :
  let r := door_state_handling s st in
  total_delay (events_of r) = 0 /\
  count_events is_raise_alert (events_of r) = 0%nat /\
  count_events is_gpio_set (events_of r) = 0%nat /\
  notification_sent (state_of r) =
    (s =? previous_sensor_state st) && notification_sent st.
Proof.
  destruct st. fw_run; repeat split; reflexivity.
Qed.

Lemma total_delay_app (l1 l2 : list event) :
  total_delay (l1 ++ l2) = total_delay l1 + total_delay l2.
Proof.
  unfold total_delay. induction l1 as [|e l1 IH]; cbn; [reflexivity|].
  rewrite IH. lia.
Qed.

(** ** What one tick costs and raises *)

Lemma tick_alert_count (st : state) :
  let s := line IR_SENSOR_GPIO st in
  count_events is_raise_alert (events_of (ir_sensor_iteration st)) =
    if alarm_enabled st && (s =? 1) &&
       (negb (s =? previous_sensor_state st) || negb (notification_sent st))
    then 1%nat else 0%nat.
Proof.
  intros s. destruct (ir_sensor_iteration_phases st) as [_ P2]. fold s in P2.
  destruct (door_state_handling_calls s st) as (_ & D2 & _ & D4).
  destruct (door_state_handling_latch s st) as (L1 & _).
  destruct (alarm_behavior_calls s (state_of (door_state_handling s st)))
    as (_ & _ & A3 & _).
  rewrite P2, !count_events_app, D2, A3, count_tail, L1, D4 by reflexivity.
  destruct (alarm_enabled st), (s =? 1), (s =? previous_sensor_state st),
    (notification_sent st); reflexivity.
Qed.

(** X1. A tick calls [esp_rmaker_raise_alert] once when the alarm is armed,
    the sensor reads open and either the reading has changed or the
    notification latch is clear; in every other case it does not call it. *)
Theorem tick_raises_alert_exactly_when (st : state) :
  let s := line IR_SENSOR_GPIO st in
  count_events is_raise_alert (events_of (ir_sensor_iteration st)) =
    if alarm_enabled st && (s =? 1) &&
       (negb (s =? previous_sensor_state st) || negb (notification_sent st))
    then 1%nat else 0%nat.
Proof.
  intros s. destruct (ir_sensor_iteration_phases st) as [_ P2]. fold s in P2.
  destruct (door_state_handling_calls s st) as (_ & D2 & _ & D4).
  destruct (door_state_handling_latch s st) as (L1 & _).
  destruct (alarm_behavior_calls s (state_of (door_state_handling s st)))
    as (_ & _ & A3 & _).
  rewrite P2, !count_events_app, D2, A3, count_tail, L1, D4 by reflexivity.
  destruct (alarm_enabled st), (s =? 1), (s =? previous_sensor_state st),
    (notification_sent st); reflexivity.
Qed.

Lemma tick_delay (st : state) :
  total_delay (events_of (ir_sensor_iteration st)) =
    if alarm_enabled st && (line IR_SENSOR_GPIO st =? 1) then 300 else 200.
Proof.
  destruct (ir_sensor_iteration_phases st) as [_ P2].
  set (s := line IR_SENSOR_GPIO st) in *.
  destruct (door_state_handling_calls s st) as (D1 & _).
  destruct (door_state_handling_latch s st) as (L1 & _).
  destruct (alarm_behavior_calls s (state_of (door_state_handling s st)))
    as (A1 & A2 & _).
  rewrite P2, !total_delay_app, D1, A2, A1, L1.
  destruct (alarm_enabled st && (s =? 1)); reflexivity.
Qed.

(** X2. A tick spends 300 ms in [vTaskDelay] when the alarm is armed and the
    sensor reads open (the two halves of the blink, the tail delay skipped),
    and 200 ms (the tail delay alone) otherwise. *)
Theorem tick_duration (st : state) :
  total_delay (events_of (ir_sensor_iteration st)) =
    if alarm_enabled st && (line IR_SENSOR_GPIO st =? 1) then 300 else 200.
Proof.
  destruct (ir_sensor_iteration_phases st) as [_ P2].
  set (s := line IR_SENSOR_GPIO st) in *.
  destruct (door_state_handling_calls s st) as (D1 & _).
  destruct (door_state_handling_latch s st) as (L1 & _).
  destruct (alarm_behavior_calls s (state_of (door_state_handling s st)))
    as (A1 & A2 & _).
  rewrite P2, !total_delay_app, D1, A2, A1, L1.
  destruct (alarm_enabled st && (s =? 1)); reflexivity.
Qed.

Lemma alarm_behavior_armed_closed (s : Z) (st : state) :
  alarm_enabled st = true -> s <> 1 ->
  let r := alarm_behavior s st in
  events_of r = [EvGpioSet BUZZER_GPIO 0; EvGpioSet LED_GPIO (level_of_bool (led_state st))] /\
  result_of r = LoopFallThrough /\
  cloud (state_of r) = cloud st /\
  notification_sent (state_of r) = notification_sent st.
Proof.
  intros He Hs. destruct st. cbn in He. subst. fw_run; repeat split; reflexivity.
Qed.

(** X3. A tick with the alarm armed and the sensor not reading open, after
    the door handling, only drives the buzzer off and the LED to
    [led_state] and takes the 200 ms delay: it raises no alert and pushes
    nothing more to the sink; when the reading has not changed either, the
    sink and both locals of the task are left exactly as they were. *)
Theorem armed_closed_tick (st : state) :
  alarm_enabled st = true ->
  line IR_SENSOR_GPIO st <> 1 ->
  let s := line IR_SENSOR_GPIO st in
  let tick := ir_sensor_iteration st in
  events_of tick =
    events_of (door_state_handling s st) ++
    [EvGpioSet BUZZER_GPIO 0; EvGpioSet LED_GPIO (level_of_bool (led_state st));
     EvDelay 200] /\
  count_events is_raise_alert (events_of tick) = 0%nat /\
  (BUZZER_GPIO ∉ gpio_fault st -> line BUZZER_GPIO (state_of tick) = 0) /\
  (LED_GPIO ∉ gpio_fault st ->
   line LED_GPIO (state_of tick) = level_of_bool (led_state st)) /\
  (s = previous_sensor_state st ->
   events_of tick =
     [EvGpioSet BUZZER_GPIO 0; EvGpioSet LED_GPIO (level_of_bool (led_state st));
      EvDelay 200] /\
   cloud (state_of tick) = cloud st /\
   previous_sensor_state (state_of tick) = previous_sensor_state st /\
   notification_sent (state_of tick) = notification_sent st).
Proof.
  intros He Hs s tick.
  destruct (ir_sensor_iteration_phases st) as [P1 P2]. fold s in P1, P2. fold tick in P1, P2.
  destruct (door_state_handling_latch s st)
    as (L1 & L2 & L3 & L4 & L5 & L6 & L7 & L8 & L9 & L10).
  set (st1 := state_of (door_state_handling s st)) in *.
  assert (He1 : alarm_enabled st1 = true) by congruence.
  destruct (alarm_behavior_armed_closed s st1 He1 Hs) as (A1 & A2 & A3 & A4).
  destruct (alarm_behavior_lines s st1) as (B1 & B2 & _).
  rewrite A1, A2, L2 in P2. cbn [app] in P2.
  assert (Hc : count_events is_raise_alert (events_of tick) = 0%nat).
  { pose proof (tick_alert_count st) as T. cbv zeta in T.
    fold s tick in T. rewrite T.
    destruct (Z.eqb_spec s 1); [contradiction|]. rewrite andb_false_r. reflexivity. }
  split; [exact P2|]. split; [exact Hc|].
  split; [intros Hf; rewrite P1, B1 by congruence; rewrite He1;
          destruct (Z.eqb_spec s 1); [contradiction | reflexivity]|].
  split; [intros Hf; rewrite P1, B2 by congruence; congruence|].
  intros Hprev.
  assert (E : door_state_handling s st = (tt, st, [])).
  { rewrite Hprev. apply door_state_handling_same. }
  split; [rewrite P2, E; reflexivity|].
  assert (Est : st1 = st) by (unfold st1; rewrite E; reflexivity).
  destruct (alarm_behavior_frame s st1) as (F1 & _).
  rewrite P1, A3, A4, F1, Est. repeat split; reflexivity.
Qed.

Lemma armed_closed_tick_witness :
  let st := state_of (run [Write "Alarm System" ("Alarm System", "Power") true; Tick]
                          (boot ∅ ∅)) in
  events_of (ir_sensor_iteration st) =
    [EvGpioSet BUZZER_GPIO 0; EvGpioSet LED_GPIO 0; EvDelay 200] /\
  cloud (state_of (ir_sensor_iteration st)) = cloud st.
Proof.
  intros st.
  assert (He : alarm_enabled st = true) by reflexivity.
  assert (Hs : line IR_SENSOR_GPIO st <> 1) by (vm_compute; discriminate).
  pose proof (armed_closed_tick st He Hs) as H. cbv zeta in H.
  destruct H as (_ & _ & _ & _ & H5).
  destruct (H5 eq_refl) as (E1 & E2 & _). split; [exact E1 | exact E2].
Defined.

(** ** The router, branch by branch *)

Lemma write_cb_cases (device : esp_rmaker_device_t) (param : esp_rmaker_param_t)
      (val : bool) (st : state) :
  params_created st ->
  let r := write_cb device param val st in
  let st' := state_of r in
  (esp_rmaker_device_get_name device = "Home Light" /\
   esp_rmaker_param_get_name param = "Power" /\
   led_state st' = val /\ alarm_enabled st' = alarm_enabled st /\
   cloud st' = <[param := esp_rmaker_bool val]> (cloud st) /\
   gpio_level st' = (if decide (LED_GPIO ∈ gpio_fault st) then gpio_level st
                     else <[LED_GPIO := level_of_bool val]> (gpio_level st))) \/
  (esp_rmaker_device_get_name device = "Alarm System" /\
   esp_rmaker_param_get_name param = "Power" /\ val = true /\
   led_state st' = led_state st /\ alarm_enabled st' = true /\
   cloud st' = <[param := esp_rmaker_bool true]> (cloud st) /\
   gpio_level st' = gpio_level st /\
   events_of r = [EvDiag "ALARM_ACTION" "Alarm System set to: ON";
                  EvParamUpdate param (esp_rmaker_bool true)]) \/
  (esp_rmaker_device_get_name device = "Alarm System" /\
   esp_rmaker_param_get_name param = "Power" /\ val = false /\
   led_state st' = led_state st /\ alarm_enabled st' = false /\
   cloud st' = <[param := esp_rmaker_bool false]>
                 (<[alarm_trigger_handle := esp_rmaker_bool false]>
                    (<[door_status_handle := esp_rmaker_str "CLOSED"]> (cloud st))) /\
   gpio_level st' =
     (if decide (LED_GPIO ∈ gpio_fault st) then id
      else <[LED_GPIO := level_of_bool (led_state st)]>)
       ((if decide (BUZZER_GPIO ∈ gpio_fault st) then id
         else <[BUZZER_GPIO := 0]>) (gpio_level st))) \/
  (~ (esp_rmaker_device_get_name device = "Home Light" /\
      esp_rmaker_param_get_name param = "Power") /\
   ~ (esp_rmaker_device_get_name device = "Alarm System" /\
      esp_rmaker_param_get_name param = "Power") /\
   st' = st /\ events_of r = []).
Proof.
  intros [Hd Ha] r st'. subst st' r. destruct st. cbn in Hd, Ha. subst.
  unfold esp_rmaker_device_get_name, esp_rmaker_param_get_name.
  destruct (decide (device = "Home Light")) as [D1|D1];
  destruct (decide (device = "Alarm System")) as [D2|D2];
  destruct (decide (param.2 = "Power")) as [D3|D3]; subst; try discriminate.
  - left. destruct param as [pd pn]. cbn in D3. subst.
    destruct val; fw_run; repeat split;
      repeat (match goal with
              | |- context [decide (?x ∈ ?f)] => destruct (decide (x ∈ f)); try contradiction
              end); reflexivity.
  - right. right. right. fw_run. repeat split; try reflexivity; intros [? ?]; congruence.
  - right. destruct param as [pd pn]. cbn in D3. subst.
    destruct val; [left | right; left]; fw_run; repeat split;
      repeat (match goal with
              | |- context [decide (?x ∈ ?f)] => destruct (decide (x ∈ f)); try contradiction
              end); reflexivity.
  - right. right. right. fw_run. repeat split; try reflexivity; intros [? ?]; congruence.
  - right. right. right. fw_run. repeat split; try reflexivity; intros [? ?]; congruence.
  - right. right. right. fw_run. repeat split; try reflexivity; intros [? ?]; congruence.
Qed.

(** X4. Arming (a write of true to the Alarm System's Power) only sets
    [alarm_enabled], logs the diagnostic event and echoes the value: it
    makes no GPIO write and no push to Door Status or Alarm Triggered, and
    leaves the lines, [led_state] and the locals of the polling task as they
    were. *)
Theorem arming_write_only_sets_flag (st : state)
        (device : esp_rmaker_device_t) (param : esp_rmaker_param_t) :
  params_created st ->
  esp_rmaker_device_get_name device = "Alarm System" ->
  esp_rmaker_param_get_name param = "Power" ->
  let r := write_cb device param true st in
  events_of r = [EvDiag "ALARM_ACTION" "Alarm System set to: ON";
                 EvParamUpdate param (esp_rmaker_bool true)] /\
  alarm_enabled (state_of r) = true /\
  gpio_level (state_of r) = gpio_level st /\
  led_state (state_of r) = led_state st /\
  DoorStatus (state_of r) = DoorStatus st /\
  AlertActive (state_of r) = AlertActive st /\
  previous_sensor_state (state_of r) = previous_sensor_state st /\
  notification_sent (state_of r) = notification_sent st.
Proof.
  intros Hp Hdev Hpar r.
  destruct (write_cb_frame device param true st) as (W1 & W2 & _).
  destruct (write_cb_cases device param true st Hp)
    as [(D & _)|[(_ & _ & _ & C1 & C2 & C3 & C4 & C5)|[(_ & _ & F & _)|(_ & N & _)]]].
  - rewrite Hdev in D. discriminate D.
  - fold r in W1, W2, C1, C2, C3, C4, C5.
    unfold DoorStatus, AlertActive. rewrite C3.
    rewrite !lookup_insert_ne by auto with fw.
    repeat split; assumption.
  - discriminate F.
  - exfalso. apply N. split; assumption.
Qed.

Lemma arming_write_only_sets_flag_witness :
  let st := state_of (run [Sensor 1; Tick] (boot ∅ ∅)) in
  let r := write_cb "Alarm System" ("Alarm System", "Power") true st in
  count_events is_gpio_set (events_of r) = 0%nat /\
  alarm_enabled (state_of r) = true /\ DoorStatus (state_of r) = DoorStatus st.
Proof.
  intros st r.
  assert (Hp : params_created st) by (split; reflexivity).
  pose proof (arming_write_only_sets_flag st "Alarm System" ("Alarm System", "Power")
                Hp eq_refl eq_refl) as H.
  cbv zeta in H. fold r in H. destruct H as (H1 & H2 & _ & _ & H5 & _).
  split; [rewrite H1; reflexivity|]. split; [exact H2 | exact H5].
Defined.

(** X5. The write callback never fails and never blocks: whatever the
    device, the parameter, the value and the state (created handles or not,
    faulty lines or not), it returns [ESP_OK], calls neither [vTaskDelay]
    nor [esp_rmaker_raise_alert], and leaves the two locals of the polling
    task and the sensor line alone. *)
Theorem write_cb_always_ok (device : esp_rmaker_device_t) (param : esp_rmaker_param_t)
        (val : bool) (st : state) :
  let r := write_cb device param val st in
  result_of r = ESP_OK /\
  total_delay (events_of r) = 0 /\
  count_events is_raise_alert (events_of r) = 0%nat /\
  previous_sensor_state (state_of r) = previous_sensor_state st /\
  notification_sent (state_of r) = notification_sent st /\
  line IR_SENSOR_GPIO (state_of r) = line IR_SENSOR_GPIO st.
Proof.
  intros r.
  destruct (write_cb_frame device param val st) as (W1 & W2 & _ & _ & _ & W6).
  destruct (write_cb_counts device param val st) as (_ & C).
  split; [|split; [|repeat split; assumption]].
  - subst r. destruct st. fw_run; reflexivity.
  - subst r. destruct st. fw_run; reflexivity.
Qed.

(** ** The two flags along an execution *)

Lemma perform_state (a : action) (st : state) :
  state_of (perform a st) =
  match a with
  | Tick => state_of (ir_sensor_iteration st)
  | Write device param val => state_of (write_cb device param val st)
  | Sensor level =>
      with_gpio_level (<[IR_SENSOR_GPIO := level]> (gpio_level st)) st
  end.
Proof.
  destruct a as [|device param val|level]; cbn [perform]; try reflexivity.
  unfold bind, ret, state_of. destruct (write_cb device param val st) as [[res st1] e1].
  reflexivity.
Qed.

Lemma ir_sensor_iteration_frame (st : state) :
  let st' := state_of (ir_sensor_iteration st) in
  alarm_enabled st' = alarm_enabled st /\
  led_state st' = led_state st /\
  door_status_param st' = door_status_param st /\
  alarm_trigger_param st' = alarm_trigger_param st /\
  gpio_fault st' = gpio_fault st /\
  line IR_SENSOR_GPIO st' = line IR_SENSOR_GPIO st /\
  previous_sensor_state st' = line IR_SENSOR_GPIO st.
Proof.
  destruct (ir_sensor_iteration_phases st) as [P1 _]. cbv zeta. rewrite P1.
  set (s := line IR_SENSOR_GPIO st).
  destruct (door_state_handling_latch s st) as (L1 & L2 & L3 & L4 & L5 & L6 & L7 & _).
  destruct (alarm_behavior_frame s (state_of (door_state_handling s st)))
    as (F1 & F2 & F3 & F4 & F5 & F6 & F7).
  repeat split; try congruence.
  rewrite F7. unfold line. rewrite L6. reflexivity.
Qed.

Lemma write_cb_flags (device : esp_rmaker_device_t) (param : esp_rmaker_param_t)
      (val : bool) (st : state) :
  let st' := state_of (write_cb device param val st) in
  led_state st' = default (led_state st) (commands "Home Light" (Write device param val)) /\
  alarm_enabled st' =
    default (alarm_enabled st) (commands "Alarm System" (Write device param val)).
Proof.
  unfold commands, esp_rmaker_device_get_name, esp_rmaker_param_get_name.
  destruct st.
  destruct (decide (device = "Home Light")) as [D1|D1];
  destruct (decide (device = "Alarm System")) as [D2|D2];
  destruct (decide (param.2 = "Power")) as [D3|D3]; subst; try discriminate;
    repeat case_bool_decide;
    try (exfalso; intuition congruence);
    try (destruct param as [pd pn]; cbn in D3; subst);
    destruct val; fw_run; split; reflexivity.
Qed.

(** X6. Along any execution the two flags are decided by the writes alone:
    [led_state] is the value of the last write to the Home Light's Power,
    [alarm_enabled] the value of the last write to the Alarm System's Power
    (the value at the start if there was no such write); ticks, movements of
    the door and all other writes leave both unchanged. *)
Theorem flags_follow_last_write (acts : list action) (st : state) :
  led_state (state_of (run acts st)) = commanded "Home Light" acts (led_state st) /\
  alarm_enabled (state_of (run acts st)) =
    commanded "Alarm System" acts (alarm_enabled st).
Proof.
  revert st. induction acts as [|a rest IH]; intros st; [split; reflexivity|].
  destruct (run_cons a rest st) as [R _]. rewrite R.
  destruct (IH (state_of (perform a st))) as [I1 I2]. rewrite I1, I2.
  unfold commanded. cbn [fold_left].
  assert (E : led_state (state_of (perform a st)) =
              default (led_state st) (commands "Home Light" a) /\
              alarm_enabled (state_of (perform a st)) =
              default (alarm_enabled st) (commands "Alarm System" a)).
  { rewrite perform_state. destruct a as [|device param val|level].
    - destruct (ir_sensor_iteration_frame st) as (F1 & F2 & _). split; assumption.
    - apply write_cb_flags.
    - destruct st; split; reflexivity. }
  destruct E as [E1 E2]. rewrite E1, E2. split; reflexivity.
Qed.

(** ** Invariants of the lines and of the sink *)

Lemma run_invariant (Q : action -> bool) (P : state -> Prop) :
  (forall a st, Q a = true -> inv st -> P st -> P (state_of (perform a st))) ->
  forall acts st, forallb Q acts = true -> inv st -> P st -> P (state_of (run acts st)).
Proof.
  intros Hstep acts. induction acts as [|a rest IH]; intros st Hq Hi Hp; [exact Hp|].
  cbn [forallb] in Hq. apply andb_prop in Hq. destruct Hq as [Ha Hrest].
  rewrite (proj1 (run_cons a rest st)).
  apply IH; [exact Hrest | apply inv_perform; exact Hi | apply Hstep; assumption].
Qed.

Lemma forallb_all_true (acts : list action) : forallb (fun _ => true) acts = true.
Proof. induction acts; cbn; auto. Qed.

Lemma boot_facts (fault : gset Z) (lines : gmap Z Z) :
  let st := boot fault lines in
  gpio_fault st = fault /\
  led_state st = false /\ alarm_enabled st = false /\
  previous_sensor_state st = -1 /\ notification_sent st = false /\
  (LED_GPIO ∉ fault -> line LED_GPIO st = 0) /\
  (BUZZER_GPIO ∉ fault -> line BUZZER_GPIO st = 0) /\
  cloud st !! ("Home Light", "Power") = Some (esp_rmaker_bool false) /\
  cloud st !! ("Alarm System", "Power") = Some (esp_rmaker_bool false) /\
  cloud st !! door_status_handle = Some (esp_rmaker_str "CLOSED") /\
  cloud st !! alarm_trigger_handle = Some (esp_rmaker_bool false).
Proof.
  unfold boot, app_main, app_driver_init, esp_rmaker_param_create,
    ir_sensor_task_entry, power_on, line.
  fw_run; repeat split; intros; try contradiction; fw_lookup; reflexivity.
Qed.

Lemma perform_fault (a : action) (st : state) :
  gpio_fault (state_of (perform a st)) = gpio_fault st.
Proof.
  rewrite perform_state. destruct a as [|device param val|level].
  - apply ir_sensor_iteration_frame.
  - apply write_cb_frame.
  - destruct st; reflexivity.
Qed.

Lemma run_fault (acts : list action) (st : state) :
  gpio_fault (state_of (run acts st)) = gpio_fault st.
Proof.
  revert st. induction acts as [|a rest IH]; intros st; [reflexivity|].
  rewrite (proj1 (run_cons a rest st)), IH. apply perform_fault.
Qed.

Lemma line_insert_other (pin pin' : gpio_num_t) (level : Z) (st : state) :
  pin <> pin' ->
  line pin' (with_gpio_level (<[pin := level]> (gpio_level st)) st) = line pin' st.
Proof. intros H. destruct st. unfold line. cbn. rewrite lookup_insert_ne by exact H. reflexivity. Qed.

Lemma led_follows_light_step (a : action) (st : state) :
  inv st ->
  (LED_GPIO ∉ gpio_fault st -> line LED_GPIO st = level_of_bool (led_state st)) ->
  LED_GPIO ∉ gpio_fault (state_of (perform a st)) ->
  line LED_GPIO (state_of (perform a st)) =
  level_of_bool (led_state (state_of (perform a st))).
Proof.
  intros (Hp & _) HP. rewrite perform_fault. intros Hf. specialize (HP Hf).
  rewrite perform_state. destruct a as [|device param val|level].
  - destruct (ir_sensor_iteration_frame st) as (_ & F2 & _).
    destruct (ir_sensor_iteration_phases st) as [P1 _]. rewrite F2, P1.
    set (s := line IR_SENSOR_GPIO st).
    destruct (door_state_handling_latch s st) as (_ & L2 & _ & _ & L5 & _).
    destruct (alarm_behavior_lines s (state_of (door_state_handling s st))) as (_ & B2 & _).
    rewrite B2 by congruence. congruence.
  - destruct (write_cb_cases device param val st Hp)
      as [(_ & _ & C1 & _ & _ & C4)|[(_ & _ & _ & C1 & _ & _ & C4 & _)|
          [(_ & _ & _ & C1 & _ & _ & C4)|(_ & _ & C & _)]]].
    + unfold line. rewrite C4, C1. destruct (decide (LED_GPIO ∈ gpio_fault st));
        [contradiction|]. rewrite lookup_insert_eq. reflexivity.
    + unfold line in *. rewrite C4, C1. exact HP.
    + unfold line. rewrite C4, C1. destruct (decide (LED_GPIO ∈ gpio_fault st));
        [contradiction|]. rewrite lookup_insert_eq. reflexivity.
    + rewrite C. exact HP.
  - rewrite line_insert_other by discriminate. destruct st; exact HP.
Qed.

(** In the executions in which no write comes in during an iteration and
    no iteration during a write, a working LED line is at the level of
    [led_state] after every step. *)
Lemma led_line_follows_light_state (fault : gset Z) (lines : gmap Z Z)
        (acts : list action) :
  LED_GPIO ∉ fault ->
  let st := state_of (run acts (boot fault lines)) in
  line LED_GPIO st = level_of_bool (led_state st).
Proof.
  intros Hf st.
  destruct (boot_facts fault lines) as (B1 & B2 & _ & _ & _ & B6 & _).
  assert (H : LED_GPIO ∉ gpio_fault st -> line LED_GPIO st = level_of_bool (led_state st)).
  { unfold st.
    apply (run_invariant (fun _ => true)
             (fun st => LED_GPIO ∉ gpio_fault st ->
                        line LED_GPIO st = level_of_bool (led_state st))).
    - intros a st0 _ Hi HP. apply led_follows_light_step; assumption.
    - apply forallb_all_true.
    - apply inv_boot.
    - intros _. rewrite B2. apply B6. exact Hf. }
  apply H. unfold st. rewrite run_fault, B1. exact Hf.
Qed.

Lemma tick_cloud (st : state) :
  params_created st ->
  let s := line IR_SENSOR_GPIO st in
  let c1 := if s =? previous_sensor_state st then cloud st
            else if s =? 1 then <[door_status_handle := esp_rmaker_str "OPENED"]> (cloud st)
            else <[alarm_trigger_handle := esp_rmaker_bool false]>
                   (<[door_status_handle := esp_rmaker_str "CLOSED"]> (cloud st)) in
  cloud (state_of (ir_sensor_iteration st)) =
    if alarm_enabled st then
      if s =? 1 then <[alarm_trigger_handle := esp_rmaker_bool true]> c1 else c1
    else <[alarm_trigger_handle := esp_rmaker_bool false]>
           (<[door_status_handle := esp_rmaker_str "CLOSED"]> c1).
Proof.
  intros Hp s c1.
  destruct (ir_sensor_iteration_phases st) as [P1 _]. fold s in P1. rewrite P1.
  destruct (door_state_handling_latch s st) as (L1 & _ & L3 & L4 & _).
  assert (Hp1 : params_created (state_of (door_state_handling s st))).
  { destruct Hp as [Hd Ha]. split; congruence. }
  rewrite (alarm_behavior_cloud s _ Hp1), L1, (door_state_handling_cloud s st Hp).
  reflexivity.
Qed.

Lemma tick_buzzer (st : state) :
  BUZZER_GPIO ∉ gpio_fault st ->
  line BUZZER_GPIO (state_of (ir_sensor_iteration st)) =
    if alarm_enabled st && (line IR_SENSOR_GPIO st =? 1) then 1 else 0.
Proof.
  intros Hf. destruct (ir_sensor_iteration_phases st) as [P1 _]. rewrite P1.
  set (s := line IR_SENSOR_GPIO st).
  destruct (door_state_handling_latch s st) as (L1 & _ & _ & _ & L5 & _).
  destruct (alarm_behavior_lines s (state_of (door_state_handling s st))) as (B1 & _).
  rewrite B1 by congruence. rewrite L1. reflexivity.
Qed.

Lemma buzzer_iff_alert_step (a : action) (st : state) :
  inv st ->
  (BUZZER_GPIO ∉ gpio_fault st ->
   (line BUZZER_GPIO st = 1 <-> AlertActive st = true)) ->
  BUZZER_GPIO ∉ gpio_fault (state_of (perform a st)) ->
  (line BUZZER_GPIO (state_of (perform a st)) = 1 <->
   AlertActive (state_of (perform a st)) = true).
Proof.
  intros (Hp & HA & _) HP. rewrite perform_fault. intros Hf. specialize (HP Hf).
  rewrite AlertActive_true in *. rewrite perform_state.
  destruct a as [|device param val|level].
  - rewrite (tick_buzzer st Hf), (tick_cloud st Hp).
    set (s := line IR_SENSOR_GPIO st).
    destruct (alarm_enabled st) eqn:He; cbn [andb].
    + destruct (Z.eqb_spec s 1) as [Hs|Hs].
      * rewrite lookup_insert_eq. tauto.
      * destruct (Z.eqb_spec s (previous_sensor_state st)) as [Hq|Hq].
        -- split; [discriminate|]. intros H. destruct (HA H) as [_ H1]. congruence.
        -- rewrite lookup_insert_eq. split; discriminate.
    + rewrite lookup_insert_eq. split; discriminate.
  - destruct (write_cb_cases device param val st Hp)
      as [(_ & Hn & _ & _ & C3 & C4)|[(_ & Hn & _ & _ & _ & C3 & C4 & _)|
          [(_ & Hn & _ & _ & _ & C3 & C4)|(_ & _ & C & _)]]].
    + unfold line in *. rewrite C3, C4.
      rewrite lookup_insert_ne by (apply power_not_alarm_trigger; exact Hn).
      destruct (decide (LED_GPIO ∈ gpio_fault st)); [exact HP|].
      rewrite lookup_insert_ne by discriminate. exact HP.
    + unfold line in *. rewrite C3, C4.
      rewrite lookup_insert_ne by (apply power_not_alarm_trigger; exact Hn). exact HP.
    + unfold line. rewrite C3, C4.
      rewrite lookup_insert_ne by (apply power_not_alarm_trigger; exact Hn).
      rewrite lookup_insert_eq.
      destruct (decide (BUZZER_GPIO ∈ gpio_fault st)); [contradiction|].
      destruct (decide (LED_GPIO ∈ gpio_fault st)); unfold id;
        rewrite ?(lookup_insert_ne _ LED_GPIO BUZZER_GPIO) by discriminate;
        rewrite lookup_insert_eq; split; discriminate.
    + rewrite C. exact HP.
  - rewrite line_insert_other by discriminate. destruct st; exact HP.
Qed.

(** In the executions in which no write comes in during an iteration and
    no iteration during a write, a working buzzer line is at 1 after a step
    exactly when the sink's Alarm Triggered is true. *)
Lemma buzzer_on_iff_alert_active (fault : gset Z) (lines : gmap Z Z)
        (acts : list action) :
  BUZZER_GPIO ∉ fault ->
  let st := state_of (run acts (boot fault lines)) in
  line BUZZER_GPIO st = 1 <-> AlertActive st = true.
Proof.
  intros Hf st.
  destruct (boot_facts fault lines) as (B1 & _ & _ & _ & _ & _ & B7 & _ & _ & _ & B11).
  assert (H : BUZZER_GPIO ∉ gpio_fault st ->
              (line BUZZER_GPIO st = 1 <-> AlertActive st = true)).
  { unfold st.
    apply (run_invariant (fun _ => true)
             (fun st => BUZZER_GPIO ∉ gpio_fault st ->
                        (line BUZZER_GPIO st = 1 <-> AlertActive st = true))).
    - intros a st0 _ Hi HP. apply buzzer_iff_alert_step; assumption.
    - apply forallb_all_true.
    - apply inv_boot.
    - intros _. rewrite AlertActive_true, B11, (B7 Hf). split; discriminate. }
  apply H. unfold st. rewrite run_fault, B1. exact Hf.
Qed.

Lemma sink_values_step (a : action) (st : state) :
  inv st ->
  ((DoorStatus st = Some (esp_rmaker_str "OPENED") \/
    DoorStatus st = Some (esp_rmaker_str "CLOSED")) /\
   (exists b, cloud st !! alarm_trigger_handle = Some (esp_rmaker_bool b)) /\
   (DoorStatus st = Some (esp_rmaker_str "OPENED") ->
    alarm_enabled st = true /\ previous_sensor_state st = 1)) ->
  let st' := state_of (perform a st) in
  (DoorStatus st' = Some (esp_rmaker_str "OPENED") \/
   DoorStatus st' = Some (esp_rmaker_str "CLOSED")) /\
  (exists b, cloud st' !! alarm_trigger_handle = Some (esp_rmaker_bool b)) /\
  (DoorStatus st' = Some (esp_rmaker_str "OPENED") ->
   alarm_enabled st' = true /\ previous_sensor_state st' = 1).
Proof.
  intros (Hp & _) (HD & HT & HO) st'. subst st'. unfold DoorStatus in *.
  rewrite perform_state. destruct a as [|device param val|level].
  - destruct (ir_sensor_iteration_frame st) as (F1 & _ & _ & _ & _ & _ & F7).
    rewrite F1, F7, (tick_cloud st Hp).
    set (s := line IR_SENSOR_GPIO st).
    destruct (alarm_enabled st) eqn:He;
      destruct (Z.eqb_spec s 1) as [Hs|Hs];
      destruct (Z.eqb_spec s (previous_sensor_state st)) as [Hq|Hq];
      fw_lookup; (split; [|split]); eauto; try (intros H; discriminate H);
        try (intros _; split; [reflexivity | assumption]).
    intros H. destruct (HO H) as [_ H1]. congruence.
  - destruct (write_cb_frame device param val st) as (W1 & _).
    destruct (write_cb_cases device param val st Hp)
      as [(_ & Hn & _ & C2 & C3 & _)|[(_ & Hn & _ & _ & C2 & C3 & _)|
          [(_ & Hn & _ & _ & C2 & C3 & _)|(_ & _ & C & _)]]].
    + rewrite C3, C2, W1.
      rewrite !lookup_insert_ne by
          (first [apply power_not_alarm_trigger | apply power_not_door_status]; exact Hn).
      auto.
    + rewrite C3, C2, W1.
      rewrite !lookup_insert_ne by
          (first [apply power_not_alarm_trigger | apply power_not_door_status]; exact Hn).
      split; [exact HD|]. split; [exact HT|]. intros H. destruct (HO H). auto.
    + rewrite C3, C2, W1.
      rewrite !(lookup_insert_ne _ param) by
          (first [apply power_not_alarm_trigger | apply power_not_door_status]; exact Hn).
      fw_lookup. split; [right; reflexivity|]. split; [eauto|]. intros H. discriminate H.
    + rewrite C. auto.
  - destruct st. cbn in *. auto.
Qed.

(** X9. In every state reached from boot the sink's Door Status is the
    string "OPENED" or "CLOSED" and its Alarm Triggered is a boolean; and
    Door Status is "OPENED" only while the alarm is armed and the stored
    reading is open: a door that opens while the alarm is off is never
    shown as opened. *)
Theorem sink_values_well_formed (fault : gset Z) (lines : gmap Z Z)
        (acts : list action) :
  let st := state_of (run acts (boot fault lines)) in
  (DoorStatus st = Some (esp_rmaker_str "OPENED") \/
   DoorStatus st = Some (esp_rmaker_str "CLOSED")) /\
  (exists b, cloud st !! alarm_trigger_handle = Some (esp_rmaker_bool b)) /\
  (DoorStatus st = Some (esp_rmaker_str "OPENED") ->
   alarm_enabled st = true /\ DoorState st = OPEN).
Proof.
  intros st.
  destruct (boot_facts fault lines) as (_ & _ & _ & _ & _ & _ & _ & _ & _ & B10 & B11).
  assert (H : (DoorStatus st = Some (esp_rmaker_str "OPENED") \/
               DoorStatus st = Some (esp_rmaker_str "CLOSED")) /\
              (exists b, cloud st !! alarm_trigger_handle = Some (esp_rmaker_bool b)) /\
              (DoorStatus st = Some (esp_rmaker_str "OPENED") ->
               alarm_enabled st = true /\ previous_sensor_state st = 1)).
  { unfold st.
    apply (run_invariant (fun _ => true)
             (fun st =>
                (DoorStatus st = Some (esp_rmaker_str "OPENED") \/
                 DoorStatus st = Some (esp_rmaker_str "CLOSED")) /\
                (exists b, cloud st !! alarm_trigger_handle = Some (esp_rmaker_bool b)) /\
                (DoorStatus st = Some (esp_rmaker_str "OPENED") ->
                 alarm_enabled st = true /\ previous_sensor_state st = 1))).
    - intros a st0 _ Hi HP. apply sink_values_step; assumption.
    - apply forallb_all_true.
    - apply inv_boot.
    - unfold DoorStatus. rewrite B10, B11. split; [right; reflexivity|].
      split; [eauto|]. intros H. discriminate H. }
  destruct H as (H1 & H2 & H3). split; [exact H1|]. split; [exact H2|].
  intros H. destruct (H3 H) as [H4 H5]. split; [exact H4|].
  apply DoorState_open. exact H5.
Qed.

Lemma sink_mirrors_flags_step (a : action) (st : state) :
  well_addressed a = true ->
  inv st ->
  (cloud st !! ("Home Light", "Power") = Some (esp_rmaker_bool (led_state st)) /\
   cloud st !! ("Alarm System", "Power") = Some (esp_rmaker_bool (alarm_enabled st))) ->
  let st' := state_of (perform a st) in
  cloud st' !! ("Home Light", "Power") = Some (esp_rmaker_bool (led_state st')) /\
  cloud st' !! ("Alarm System", "Power") = Some (esp_rmaker_bool (alarm_enabled st')).
Proof.
  intros Hw (Hp & _) (H1 & H2) st'. subst st'.
  assert (N1 : door_status_handle <> ("Home Light", "Power")) by discriminate.
  assert (N2 : alarm_trigger_handle <> ("Home Light", "Power")) by discriminate.
  assert (N3 : door_status_handle <> ("Alarm System", "Power")) by discriminate.
  assert (N4 : alarm_trigger_handle <> ("Alarm System", "Power")) by discriminate.
  rewrite perform_state. destruct a as [|device param val|level].
  - destruct (ir_sensor_iteration_frame st) as (F1 & F2 & _).
    rewrite F1, F2, (tick_cloud st Hp).
    destruct (alarm_enabled st);
      destruct (line IR_SENSOR_GPIO st =? 1);
      destruct (line IR_SENSOR_GPIO st =? previous_sensor_state st);
      rewrite ?lookup_insert_ne by assumption; split; assumption.
  - cbn in Hw. apply bool_decide_eq_true in Hw.
    unfold esp_rmaker_device_get_name in Hw.
    destruct (write_cb_cases device param val st Hp)
      as [(Hd & Hn & C1 & C2 & C3 & _)|[(Hd & Hn & _ & C1 & C2 & C3 & _)|
          [(Hd & Hn & _ & C1 & C2 & C3 & _)|(_ & _ & C & _)]]].
    + destruct param as [pd pn]. unfold esp_rmaker_device_get_name in Hd.
      cbn in Hn, Hw. subst.
      rewrite C1, C2, C3, lookup_insert_eq, lookup_insert_ne by discriminate.
      split; [reflexivity | exact H2].
    + destruct param as [pd pn]. unfold esp_rmaker_device_get_name in Hd.
      cbn in Hn, Hw. subst.
      rewrite C1, C2, C3, lookup_insert_eq, lookup_insert_ne by discriminate.
      split; [exact H1 | reflexivity].
    + destruct param as [pd pn]. unfold esp_rmaker_device_get_name in Hd.
      cbn in Hn, Hw. subst.
      rewrite C1, C2, C3, lookup_insert_eq.
      rewrite lookup_insert_ne by discriminate.
      rewrite !lookup_insert_ne by assumption.
      split; [exact H1 | reflexivity].
    + rewrite C. split; assumption.
  - destruct st. cbn in *. split; assumption.
Qed.

(** X10. When every write is delivered with a parameter of the device it
    names, in every state reached from boot the sink's value for the Home
    Light's Power is [led_state] and its value for the Alarm System's Power
    is [alarm_enabled]: the echo keeps the cloud and the firmware in step,
    and no tick overwrites either value. *)
Theorem sink_mirrors_flags (fault : gset Z) (lines : gmap Z Z) (acts : list action) :
  forallb well_addressed acts = true ->
  let st := state_of (run acts (boot fault lines)) in
  cloud st !! ("Home Light", "Power") = Some (esp_rmaker_bool (led_state st)) /\
  cloud st !! ("Alarm System", "Power") = Some (esp_rmaker_bool (alarm_enabled st)).
Proof.
  intros Hw st. unfold st.
  destruct (boot_facts fault lines) as (_ & B2 & B3 & _ & _ & _ & _ & B8 & B9 & _).
  apply (run_invariant well_addressed
           (fun st =>
              cloud st !! ("Home Light", "Power") = Some (esp_rmaker_bool (led_state st)) /\
              cloud st !! ("Alarm System", "Power") =
                Some (esp_rmaker_bool (alarm_enabled st)))).
  - intros a st0 Ha Hi HP. apply sink_mirrors_flags_step; assumption.
  - exact Hw.
  - apply inv_boot.
  - rewrite B2, B3. split; assumption.
Qed.

Lemma sink_mirrors_flags_witness :
  let acts := [Write "Home Light" ("Home Light", "Power") true;
               Write "Alarm System" ("Alarm System", "Power") true; Sensor 1; Tick;
               Write "Home Light" ("Home Light", "Brightness") false] in
  let st := state_of (run acts (boot ∅ ∅)) in
  cloud st !! ("Home Light", "Power") = Some (esp_rmaker_bool true) /\
  cloud st !! ("Alarm System", "Power") = Some (esp_rmaker_bool true).
Proof.
  intros acts st.
  assert (Hw : forallb well_addressed acts = true) by reflexivity.
  pose proof (sink_mirrors_flags ∅ ∅ acts Hw) as H. cbv zeta in H. fold st in H.
  assert (E1 : led_state st = true) by reflexivity.
  assert (E2 : alarm_enabled st = true) by reflexivity.
  rewrite E1, E2 in H. exact H.
Defined.

(** ** Arming with the door already open *)

Lemma tick_latch (st : state) :
  let s := line IR_SENSOR_GPIO st in
  notification_sent (state_of (ir_sensor_iteration st)) =
    (alarm_enabled st && (s =? 1)) ||
    ((s =? previous_sensor_state st) && notification_sent st).
Proof.
  intros s. destruct (ir_sensor_iteration_phases st) as [P1 _]. fold s in P1. rewrite P1.
  destruct (alarm_behavior_calls s (state_of (door_state_handling s st))) as (_ & _ & _ & Q).
  destruct (door_state_handling_latch s st) as (L1 & _).
  destruct (door_state_handling_calls s st) as (_ & _ & _ & D4).
  rewrite Q, L1, D4. reflexivity.
Qed.

Lemma perform_write_events (device : esp_rmaker_device_t) (param : esp_rmaker_param_t)
      (val : bool) (st : state) :
  events_of (perform (Write device param val) st) =
  events_of (write_cb device param val st).
Proof.
  cbn [perform]. unfold bind, ret, events_of.
  destruct (write_cb device param val st) as [[res s'] e']. cbn [fst snd].
  apply app_nil_r.
Qed.

(** X11. If the door opens while the alarm is off, is seen open by a tick,
    and the alarm is armed afterwards with the door still open, the next
    tick raises the alert (Alarm Triggered true, one
    [esp_rmaker_raise_alert] call, the only one of the three steps) but
    pushes no Door Status: the sink keeps the "CLOSED" forced by the
    disarmed tick although the door is open. *)
Theorem armed_after_opening_keeps_door_status_closed (st : state)
        (device : esp_rmaker_device_t) (param : esp_rmaker_param_t) :
  params_created st ->
  alarm_enabled st = false ->
  line IR_SENSOR_GPIO st = 1 ->
  previous_sensor_state st <> 1 ->
  esp_rmaker_device_get_name device = "Alarm System" ->
  esp_rmaker_param_get_name param = "Power" ->
  let r := run [Tick; Write device param true; Tick] st in
  AlertActive (state_of r) = true /\
  DoorState (state_of r) = OPEN /\
  DoorStatus (state_of r) = Some (esp_rmaker_str "CLOSED") /\
  count_events is_raise_alert (events_of r) = 1%nat.
Proof.
  intros Hp He Hs Hq Hdev Hpar r.
  destruct (run_cons Tick [Write device param true; Tick] st) as [R1 R2].
  set (st1 := state_of (perform Tick st)) in *.
  destruct (run_cons (Write device param true) [Tick] st1) as [R3 R4].
  set (st2 := state_of (perform (Write device param true) st1)) in *.
  destruct (run_cons Tick [] st2) as [R5 R6].
  set (st3 := state_of (perform Tick st2)) in *.
  change (state_of (run [] st3)) with st3 in R5.
  change (events_of (run [] st3)) with (@nil event) in R6.
  fold r in R1, R2. rewrite R3, R5 in R1. rewrite R4, R6, app_nil_r in R2.
  rewrite R1, R2. clear R1 R2 R3 R4 R5 R6.
  (* the first tick: alarm off, the door opening *)
  assert (T1 : st1 = state_of (ir_sensor_iteration st)) by (unfold st1; apply perform_state).
  destruct (ir_sensor_iteration_frame st) as (F1 & _ & F3 & F4 & _ & F6 & F7).
  rewrite <- T1 in F1, F3, F4, F6, F7.
  assert (Hp1 : params_created st1) by (destruct Hp; split; congruence).
  assert (C1 : cloud st1 !! door_status_handle = Some (esp_rmaker_str "CLOSED")).
  { rewrite T1, (tick_cloud st Hp), He. fw_lookup. reflexivity. }
  assert (N1 : notification_sent st1 = false).
  { rewrite T1, (tick_latch st), He, Hs.
    destruct (Z.eqb_spec 1 (previous_sensor_state st)); [congruence | reflexivity]. }
  assert (A1 : count_events is_raise_alert (events_of (perform Tick st)) = 0%nat).
  { cbn [perform]. rewrite (tick_alert_count st), He. reflexivity. }
  (* the arming write *)
  assert (T2 : st2 = state_of (write_cb device param true st1))
    by (unfold st2; apply perform_state).
  destruct (write_cb_frame device param true st1) as (W1 & W2 & W3 & W4 & _ & W6).
  rewrite <- T2 in W1, W2, W3, W4, W6.
  assert (Hp2 : params_created st2) by (destruct Hp1; split; congruence).
  destruct (write_cb_cases device param true st1 Hp1)
    as [(D & _)|[(_ & _ & _ & _ & K2 & K3 & _)|[(_ & _ & F & _)|(_ & N & _)]]];
    [rewrite Hdev in D; discriminate D | | discriminate F | exfalso; apply N; split; assumption].
  rewrite <- T2 in K2, K3.
  assert (A2 : count_events is_raise_alert
                 (events_of (perform (Write device param true) st1)) = 0%nat).
  { rewrite perform_write_events. apply write_cb_counts. }
  (* the second tick: armed, the reading unchanged *)
  assert (T3 : st3 = state_of (ir_sensor_iteration st2)) by (unfold st3; apply perform_state).
  assert (Hl2 : line IR_SENSOR_GPIO st2 = 1) by congruence.
  assert (Hq2 : previous_sensor_state st2 = 1) by congruence.
  assert (Hn2 : notification_sent st2 = false) by congruence.
  assert (A3 : count_events is_raise_alert (events_of (perform Tick st2)) = 1%nat).
  { cbn [perform]. rewrite (tick_alert_count st2), K2, Hl2, Hq2, Hn2. reflexivity. }
  assert (C3 : cloud st3 = <[alarm_trigger_handle := esp_rmaker_bool true]> (cloud st2)).
  { rewrite T3, (tick_cloud st2 Hp2), K2, Hl2, Hq2. reflexivity. }
  destruct (ir_sensor_iteration_frame st2) as (_ & _ & _ & _ & _ & _ & G7).
  rewrite <- T3 in G7.
  split; [apply AlertActive_true; rewrite C3; apply lookup_insert_eq|].
  split; [apply DoorState_open; congruence|].
  split.
  - unfold DoorStatus. rewrite C3, K3.
    rewrite lookup_insert_ne by auto with fw.
    rewrite lookup_insert_ne by (apply power_not_door_status; exact Hpar).
    exact C1.
  - rewrite !count_events_app, A1, A2, A3. reflexivity.
Qed.

Lemma armed_after_opening_keeps_door_status_closed_witness :
  let st := state_of (run [Tick; Sensor 1] (boot ∅ ∅)) in
  let r := run [Tick; Write "Alarm System" ("Alarm System", "Power") true; Tick] st in
  AlertActive (state_of r) = true /\
  DoorStatus (state_of r) = Some (esp_rmaker_str "CLOSED").
Proof.
  intros st r.
  assert (Hp : params_created st) by (split; reflexivity).
  assert (He : alarm_enabled st = false) by reflexivity.
  assert (Hs : line IR_SENSOR_GPIO st = 1) by reflexivity.
  assert (Hq : previous_sensor_state st <> 1) by (vm_compute; discriminate).
  pose proof (armed_after_opening_keeps_door_status_closed st "Alarm System"
                ("Alarm System", "Power") Hp He Hs Hq eq_refl eq_refl) as H.
  cbv zeta in H. fold r in H. destruct H as (H1 & _ & H3 & _).
  split; [exact H1 | exact H3].
Defined.

(** ** Start-up *)

Lemma app_main_startup_result (NF NV : esp_err_t) (env : startup_env) (st : state) :
  result_of (app_main_startup NF NV env st) =
  match fst (nvs_bringup NF NV env) with
  | None => StartupAborted NvsFailed
  | Some err =>
      if negb (err =? ESP_OK) then StartupAborted NvsFailed
      else if negb (node_created env) then StartupAborted NodeInitFailed
      else if negb (app_network_start_result env =? ESP_OK)
           then StartupAborted WifiStartFailed
           else StartupRunning (task_created env)
  end.
Proof.
  unfold app_main_startup, app_driver_init, esp_rmaker_param_create.
  destruct (fst (nvs_bringup NF NV env)) as [err|]; [|destruct st; fw_run; reflexivity].
  destruct (err =? ESP_OK); cbn [negb]; [|destruct st; fw_run; reflexivity].
  destruct (node_created env); cbn [negb]; [|destruct st; fw_run; reflexivity].
  destruct (app_network_start_result env =? ESP_OK); cbn [negb];
    destruct st; fw_run; reflexivity.
Qed.

(** X12. [app_main] gets to its "running" log line exactly when the node
    was created, the network started, and the NVS flash came up: at once,
    or, after one of the two recoverable errors, through an erase and a
    second init that both succeeded. Whether [xTaskCreate] succeeded does
    not matter: when it fails the firmware is running without its polling
    task. *)
Theorem app_main_runs_iff (NF NV : esp_err_t) (env : startup_env) (st : state) (b : bool) :
  NF <> ESP_OK -> NV <> ESP_OK ->
  result_of (app_main_startup NF NV env st) = StartupRunning b <->
  b = task_created env /\
  node_created env = true /\
  app_network_start_result env = ESP_OK /\
  (nvs_flash_init_first env = ESP_OK \/
   (nvs_flash_init_first env = NF \/ nvs_flash_init_first env = NV) /\
   nvs_flash_erase_result env = ESP_OK /\
   nvs_flash_init_second env = ESP_OK).
Proof.
  intros H1 H2. rewrite app_main_startup_result. unfold nvs_bringup.
  destruct (Z.eqb_spec (nvs_flash_init_first env) NF) as [E1|E1];
  destruct (Z.eqb_spec (nvs_flash_init_first env) NV) as [E2|E2];
  destruct (Z.eqb_spec (nvs_flash_erase_result env) ESP_OK) as [E3|E3];
  cbn [orb fst];
  repeat match goal with
         | |- context [Z.eqb ?a ?b] => destruct (Z.eqb_spec a b)
         end; cbn [negb];
  destruct (node_created env); cbn [negb];
  (split; [intros H; inversion H; subst; intuition congruence
          | intros (-> & Hn & Hw & Hv); try discriminate;
            intuition (try congruence)]).
Qed.

Lemma app_main_runs_iff_witness :
  let env := mkStartupEnv 4365 ESP_OK ESP_OK true ESP_OK false in
  result_of (app_main_startup 4365 4368 env (power_on ∅ ∅)) = StartupRunning false.
Proof.
  intros env.
  apply (app_main_runs_iff 4365 4368 env (power_on ∅ ∅) false);
    [discriminate | discriminate |].
  split; [reflexivity|]. split; [reflexivity|]. split; [reflexivity|].
  right. split; [left; reflexivity|]. split; reflexivity.
Defined.

(** X13. Whatever the start-up runs into, [app_main] has first driven the
    LED and the buzzer low; and whenever it gets to "running", the state it
    leaves (the flags, both handles, the lines, the four initial sink
    values) and the calls it made are those of the part of [app_main] that
    [boot] is built on. *)
Theorem app_main_startup_state (NF NV : esp_err_t) (env : startup_env) (st : state) :
  let r := app_main_startup NF NV env st in
  (exists rest, events_of r = EvGpioSet LED_GPIO 0 :: EvGpioSet BUZZER_GPIO 0 :: rest) /\
  (forall b, result_of r = StartupRunning b ->
             state_of r = state_of (app_main st) /\
             events_of r = events_of (app_main st)).
Proof.
  intros r. subst r. split.
  - unfold app_main_startup, app_driver_init, esp_rmaker_param_create.
    destruct (fst (nvs_bringup NF NV env)) as [err|];
      [|destruct st; fw_run; eexists; reflexivity].
    destruct (err =? ESP_OK); cbn [negb]; [|destruct st; fw_run; eexists; reflexivity].
    destruct (node_created env); cbn [negb]; [|destruct st; fw_run; eexists; reflexivity].
    destruct (app_network_start_result env =? ESP_OK); cbn [negb];
      destruct st; fw_run; eexists; reflexivity.
  - intros b. rewrite app_main_startup_result.
    unfold app_main_startup, app_main, app_driver_init, esp_rmaker_param_create.
    destruct (fst (nvs_bringup NF NV env)) as [err|]; [|discriminate].
    destruct (err =? ESP_OK); cbn [negb]; [|discriminate].
    destruct (node_created env); cbn [negb]; [|discriminate].
    destruct (app_network_start_result env =? ESP_OK); cbn [negb]; [|discriminate].
    intros _. destruct st; fw_run; split; reflexivity.
Qed.

Lemma app_main_startup_state_witness :
  let env := mkStartupEnv ESP_OK ESP_OK ESP_OK true ESP_OK true in
  state_of (app_main_startup 4365 4368 env (power_on ∅ ∅)) =
  state_of (app_main (power_on ∅ ∅)).
Proof.
  intros env.
  destruct (app_main_startup_state 4365 4368 env (power_on ∅ ∅)) as [_ H].
  apply (H true). reflexivity.
Defined.

(** ** Whole executions: time and alerts *)

Lemma perform_delay (a : action) (st : state) :
  let d := total_delay (events_of (perform a st)) in
  match a with
  | Tick => 200 <= d <= 300
  | _ => d = 0
  end.
Proof.
  destruct a as [|device param val|level]; cbv zeta.
  - cbn [perform]. rewrite tick_delay.
    destruct (alarm_enabled st && (line IR_SENSOR_GPIO st =? 1)); lia.
  - rewrite perform_write_events. destruct st. fw_run; reflexivity.
  - reflexivity.
Qed.

(** X14. An execution spends between 200 ms and 300 ms in [vTaskDelay] per
    tick and none in a write: the polling period never drops below 200 ms
    and an alarm in progress stretches it to at most 300 ms. *)
Theorem polling_period_bounds (acts : list action) (st : state) :
  let ticks := Z.of_nat (count_ticks acts) in
  200 * ticks <= total_delay (events_of (run acts st)) <= 300 * ticks.
Proof.
  revert st. induction acts as [|a rest IH]; intros st; cbv zeta.
  - cbn. lia.
  - rewrite (proj2 (run_cons a rest st)), total_delay_app.
    specialize (IH (state_of (perform a st))). cbv zeta in IH.
    pose proof (perform_delay a st) as D. cbv zeta in D.
    unfold count_ticks in *.
    destruct a as [|device param val|level]; cbn [List.filter is_tick length]; lia.
Qed.

Lemma tick_opened_count (st : state) :
  params_created st ->
  let s := line IR_SENSOR_GPIO st in
  count_events is_door_opened_push (events_of (ir_sensor_iteration st)) =
    if (s =? 1) && negb (s =? previous_sensor_state st) then 1%nat else 0%nat.
Proof.
  intros Hp s. destruct (ir_sensor_iteration_phases st) as [_ P2]. fold s in P2.
  destruct (alarm_behavior_counts s (state_of (door_state_handling s st))) as (C1 & _).
  rewrite P2, !count_events_app, C1, count_tail by reflexivity.
  destruct (Z.eqb_spec s (previous_sensor_state st)) as [E|E].
  - rewrite E, door_state_handling_same, andb_false_r. reflexivity.
  - destruct (door_state_handling_edge st s Hp E) as (_ & _ & E3 & _).
    rewrite E3. unfold door_events. destruct (s =? 1); reflexivity.
Qed.

Lemma alerts_owed_step (a : action) (st : state) :
  inv st ->
  let r := perform a st in
  (count_events is_raise_alert (events_of r) + alert_owed (state_of r) <=
   count_events is_door_opened_push (events_of r) + alert_owed st)%nat.
Proof.
  intros (Hp & _) r. subst r. unfold alert_owed.
  destruct a as [|device param val|level].
  - rewrite perform_state. cbn [perform].
    destruct (ir_sensor_iteration_frame st) as (_ & _ & _ & _ & _ & _ & F7).
    rewrite (tick_alert_count st), (tick_opened_count st Hp), (tick_latch st), F7.
    destruct (Z.eqb_spec (line IR_SENSOR_GPIO st) (previous_sensor_state st)) as [E|E].
    + rewrite <- E.
      destruct (alarm_enabled st), (line IR_SENSOR_GPIO st =? 1),
        (notification_sent st); cbn; lia.
    + destruct (alarm_enabled st), (line IR_SENSOR_GPIO st =? 1),
        (previous_sensor_state st =? 1), (notification_sent st); cbn; lia.
  - rewrite perform_write_events, perform_state.
    destruct (write_cb_counts device param val st) as [C1 C2].
    destruct (write_cb_frame device param val st) as (W1 & W2 & _).
    rewrite C1, C2, W1, W2. lia.
  - destruct st; cbn. lia.
Qed.

(** X15. From boot, whatever the execution, [esp_rmaker_raise_alert] is
    never called more often than Door Status "OPENED" was pushed: each
    alert is paid for by a door opening the sink was told about. *)
Theorem alerts_bounded_by_openings (fault : gset Z) (lines : gmap Z Z)
        (acts : list action) :
  let r := run acts (boot fault lines) in
  (count_events is_raise_alert (events_of r) <=
   count_events is_door_opened_push (events_of r))%nat.
Proof.
  intros r.
  assert (G : forall acts st, inv st ->
    (count_events is_raise_alert (events_of (run acts st)) +
     alert_owed (state_of (run acts st)) <=
     count_events is_door_opened_push (events_of (run acts st)) + alert_owed st)%nat).
  { clear. intros acts. induction acts as [|a rest IH]; intros st Hi.
    - cbn. unfold count_events. cbn. lia.
    - destruct (run_cons a rest st) as [R1 R2]. rewrite R1, R2, !count_events_app.
      pose proof (alerts_owed_step a st Hi) as S. cbv zeta in S.
      pose proof (IH _ (inv_perform a st Hi)) as I. lia. }
  specialize (G acts (boot fault lines) (inv_boot fault lines)). fold r in G.
  destruct (boot_facts fault lines) as (_ & _ & _ & B4 & _).
  unfold alert_owed at 2 in G. rewrite B4 in G. cbn in G. lia.
Qed.

(** * The two tasks interleaved *)

(** ** Each task left alone is the function modelled above *)

Lemma loop_run_S (fuel : nat) (pc : loop_pc) :
  loop_run (S fuel) pc =
  (next <- loop_step pc;;
   match next with
   | None => ret None
   | Some pc' => loop_run fuel pc'
   end).
Proof. reflexivity. Qed.

Lemma loop_run_alarm (f : nat) (s : Z) (st : state) :
  loop_run (11 + f) (LArmedTest s) st =
  (None,
   state_of (ir_sensor_iteration_tail s st),
   events_of (ir_sensor_iteration_tail s st)).
Proof.
  unfold ir_sensor_iteration_tail. destruct st.
  cbn [Nat.add loop_run]. unfold loop_step.
  fw_run; reflexivity.
Qed.

Lemma ir_sensor_iteration_split (st : state) :
  ir_sensor_iteration st =
  let s := line IR_SENSOR_GPIO st in
  let r1 := door_state_handling s st in
  let r2 := ir_sensor_iteration_tail s (state_of r1) in
  (tt, state_of r2, events_of r1 ++ events_of r2).
Proof.
  unfold ir_sensor_iteration, ir_sensor_iteration_tail, gpio_get_level, line, bind, get,
    ret, vTaskDelay, emit, state_of, events_of.
  cbv beta iota zeta.
  destruct (door_state_handling _ st) as [[[] st1] e1]. cbn [fst snd].
  destruct (alarm_behavior _ st1) as [[c st2] e2].
  destruct c; cbn [fst snd app]; reflexivity.
Qed.

Local Opaque loop_run ir_sensor_iteration_tail.

(** Sixteen steps are enough for any iteration, and the polling task left
    alone for that long has done exactly [ir_sensor_iteration]. *)
Lemma loop_run_iteration (f : nat) (st : state) :
  loop_run (16 + f) LReadSensor st =
  (None, state_of (ir_sensor_iteration st), events_of (ir_sensor_iteration st)).
Proof.
  rewrite ir_sensor_iteration_split.
  assert (H : forall k s st1,
             loop_run (k + (11 + f)) (LArmedTest s) st1 =
             (None, state_of (ir_sensor_iteration_tail s st1),
              events_of (ir_sensor_iteration_tail s st1))).
  { intros k s st1. replace (k + (11 + f))%nat with (11 + (k + f))%nat by lia.
    apply loop_run_alarm. }
  change (16 + f)%nat with (S (4 + (11 + f))).
  rewrite loop_run_S. destruct st as [en led dsp atp prev sent lv fault cl].
  unfold line, loop_step at 1.
  fw_unfold. cbn -[Nat.add].
  match goal with
  | |- context [Z.eqb ?a ?b] => destruct (Z.eqb_spec a b) as [E|E]
  end; cbn -[Nat.add].
  - rewrite (H 4%nat). cbn. reflexivity.
  - match goal with
    | |- context [Z.eqb ?a 1] => destruct (Z.eqb_spec a 1) as [E1|E1]
    end; cbn -[Nat.add].
    + change (4 + (11 + f))%nat with (S (S (S (1 + (11 + f))))).
      rewrite loop_run_S. unfold loop_step at 1. fw_unfold. cbn -[Nat.add].
      rewrite loop_run_S. unfold loop_step at 1. fw_unfold. cbn -[Nat.add].
      destruct dsp; cbn -[Nat.add];
        rewrite loop_run_S; unfold loop_step at 1; fw_unfold; cbn -[Nat.add];
        rewrite (H 1%nat); cbn; reflexivity.
    + change (4 + (11 + f))%nat with (S (S (S (S (0 + (11 + f)))))).
      rewrite loop_run_S. unfold loop_step at 1. fw_unfold. cbn -[Nat.add].
      rewrite loop_run_S. unfold loop_step at 1. fw_unfold. cbn -[Nat.add].
      destruct dsp; cbn -[Nat.add];
        rewrite loop_run_S; unfold loop_step at 1; fw_unfold; cbn -[Nat.add];
        destruct atp; cbn -[Nat.add];
        rewrite loop_run_S; unfold loop_step at 1; fw_unfold; cbn -[Nat.add];
        rewrite (H 0%nat); cbn; reflexivity.
Qed.

Local Transparent loop_run ir_sensor_iteration_tail.

(** Nine steps are enough for any call, and the agent's task left alone
    for that long has done exactly [write_cb], which returns [ESP_OK]. *)
Lemma router_run_write_cb (device : esp_rmaker_device_t) (param : esp_rmaker_param_t)
      (val : bool) (st : state) :
  result_of (write_cb device param val st) = ESP_OK /\
  match router_entry device param with
  | None =>
      state_of (write_cb device param val st) = st /\
      events_of (write_cb device param val st) = []
  | Some pc =>
      router_run 9 param val pc st =
      (None, state_of (write_cb device param val st),
       events_of (write_cb device param val st))
  end.
Proof.
  destruct st. unfold router_entry, router_run, router_step.
  fw_run; split; try reflexivity; split; reflexivity.
Qed.

Lemma sys_loop_alone_at (fuel : nat) (st : state) (pc : loop_pc)
      (r : option (esp_rmaker_param_t * bool * router_pc)) :
  sys_loop_alone fuel (mkSys st (Some pc) r) =
  (mkSys (state_of (loop_run fuel pc st)) (result_of (loop_run fuel pc st)) r,
   events_of (loop_run fuel pc st)).
Proof.
  revert st pc. induction fuel as [|fuel IH]; intros st pc; [reflexivity|].
  cbn [sys_loop_alone sys_step loop_at mem router_at default from_option loop_run].
  unfold id, bind, state_of, result_of, events_of.
  destruct (loop_step pc st) as [[[pc'|] st1] e1]; cbn [loop_at fst snd].
  - rewrite IH. unfold state_of, result_of, events_of.
    destruct (loop_run fuel pc' st1) as [[rest st2] e2]. reflexivity.
  - unfold ret. cbn [fst snd]. rewrite app_nil_r. reflexivity.
Qed.

(** An iteration that nothing comes in during is [ir_sensor_iteration]. *)
Lemma sys_iteration_alone (st : state)
      (r : option (esp_rmaker_param_t * bool * router_pc)) :
  sys_loop_alone 16 (mkSys st None r) =
  (mkSys (state_of (ir_sensor_iteration st)) None r, events_of (ir_sensor_iteration st)).
Proof.
  change (sys_loop_alone 16 (mkSys st None r))
    with (sys_loop_alone 16 (mkSys st (Some LReadSensor) r)).
  rewrite sys_loop_alone_at.
  change 16%nat with (16 + 0)%nat. rewrite (loop_run_iteration 0 st). reflexivity.
Qed.

Lemma sys_router_alone_at (fuel : nat) (st : state) (l : option loop_pc)
      (param : esp_rmaker_param_t) (val : bool) (pc : router_pc) :
  sys_router_alone fuel (mkSys st l (Some (param, val, pc))) =
  (mkSys (state_of (router_run fuel param val pc st)) l
         (option_map (fun pc' => (param, val, pc'))
                     (result_of (router_run fuel param val pc st))),
   events_of (router_run fuel param val pc st)).
Proof.
  revert st pc. induction fuel as [|fuel IH]; intros st pc; [reflexivity|].
  cbn [sys_router_alone sys_step loop_at mem router_at router_run].
  unfold bind, state_of, result_of, events_of.
  destruct (router_step param val pc st) as [[[pc'|] st1] e1];
    cbn [router_at option_map fst snd].
  - rewrite IH. unfold state_of, result_of, events_of.
    destruct (router_run fuel param val pc' st1) as [[rest st2] e2]. reflexivity.
  - unfold ret. cbn [fst snd option_map]. rewrite app_nil_r. reflexivity.
Qed.

(** A call that nothing comes in during is [write_cb]. *)
Lemma sys_write_alone (device : esp_rmaker_device_t) (param : esp_rmaker_param_t)
      (val : bool) (st : state) (l : option loop_pc) :
  let σ1 := fst (sys_step (MWrite device param val) (mkSys st l None)) in
  match router_at σ1 with
  | None => σ1 = mkSys (state_of (write_cb device param val st)) l None /\
            events_of (write_cb device param val st) = []
  | Some _ =>
      sys_router_alone 9 σ1 =
      (mkSys (state_of (write_cb device param val st)) l None,
       events_of (write_cb device param val st))
  end.
Proof.
  cbn [sys_step router_at mem loop_at fst].
  destruct (router_run_write_cb device param val st) as [_ H].
  destruct (router_entry device param) as [pc|]; cbn [option_map router_at].
  - rewrite sys_router_alone_at, H. reflexivity.
  - destruct H as [H1 H2]. rewrite H1. split; [reflexivity | exact H2].
Qed.

(** ** What holds at every moment, whatever the interleaving *)

Lemma loop_step_inv (pc : loop_pc) (st : state) :
  mem_inv st -> loop_fact pc st ->
  let r := loop_step pc st in
  mem_inv (state_of r) /\
  match result_of r with
  | Some pc' => loop_fact pc' (state_of r)
  | None => True
  end.
Proof.
  unfold mem_inv. intros ([Hd Ha] & HA & HN) HF.
  destruct st as [en led dsp atp prev sent lv fault cl]. cbn in Hd, Ha, HA, HN. subst.
  destruct pc; cbn [loop_fact] in HF; unfold loop_step;
    fw_run; fw_state; unfold params_created, loop_fact; cbn;
    fw_lookup; repeat split; intros; try discriminate; try reflexivity;
      try assumption; try congruence; auto; try tauto.
Qed.

Lemma router_step_frame (param : esp_rmaker_param_t) (val : bool) (pc : router_pc)
      (st : state) :
  params_created st ->
  esp_rmaker_param_get_name param = "Power" ->
  let st' := state_of (router_step param val pc st) in
  previous_sensor_state st' = previous_sensor_state st /\
  notification_sent st' = notification_sent st /\
  door_status_param st' = door_status_param st /\
  alarm_trigger_param st' = alarm_trigger_param st /\
  (cloud st' !! alarm_trigger_handle = Some (esp_rmaker_bool true) ->
   cloud st !! alarm_trigger_handle = Some (esp_rmaker_bool true)).
Proof.
  intros [Hd Ha] Hn. pose proof (power_not_alarm_trigger param Hn) as N.
  destruct st as [en led dsp atp prev sent lv fault cl]. cbn in Hd, Ha. subst.
  destruct pc; unfold router_step; fw_run; fw_state; fw_lookup;
    repeat split; intros; try discriminate; assumption.
Qed.

Lemma loop_fact_frame (pc : loop_pc) (st st' : state) :
  previous_sensor_state st' = previous_sensor_state st ->
  (cloud st' !! alarm_trigger_handle = Some (esp_rmaker_bool true) ->
   cloud st !! alarm_trigger_handle = Some (esp_rmaker_bool true)) ->
  loop_fact pc st -> loop_fact pc st'.
Proof.
  intros Hp Hc. destruct pc; cbn [loop_fact]; try congruence; try tauto.
Qed.

Lemma router_entry_power (device : esp_rmaker_device_t) (param : esp_rmaker_param_t)
      (pc : router_pc) :
  router_entry device param = Some pc -> esp_rmaker_param_get_name param = "Power".
Proof.
  unfold router_entry.
  destruct (Z.eqb_spec (strcmp (esp_rmaker_param_get_name param) "Power") 0) as [E|E].
  - intros _. apply strcmp_zero. exact E.
  - rewrite !andb_false_r. discriminate.
Qed.

Lemma sys_step_inv (m : move) (σ : sys) : sys_inv σ -> sys_inv (fst (sys_step m σ)).
Proof.
  destruct σ as [st l r]. unfold sys_inv. cbn [mem loop_at router_at].
  intros (HM & HL & HR). destruct m as [| |device param val|level]; cbn [sys_step mem loop_at router_at].
  - assert (HF : loop_fact (default LReadSensor l) st).
    { destruct l; [exact HL | exact I]. }
    pose proof (loop_step_inv (default LReadSensor l) st HM HF) as H.
    unfold state_of, result_of in H.
    destruct (loop_step (default LReadSensor l) st) as [[next st1] e1].
    cbn [fst snd mem loop_at router_at] in *. destruct H as [H1 H2].
    split; [exact H1|]. split; [exact H2 | exact HR].
  - destruct r as [[[param val] pc]|]; [|cbn; auto].
    destruct HM as (Hp & HA & HN).
    pose proof (router_step_frame param val pc st Hp HR) as F.
    unfold state_of in F.
    destruct (router_step param val pc st) as [[next st1] e1].
    cbn [fst snd mem loop_at router_at] in *.
    destruct F as (F1 & F2 & F3 & F4 & F5).
    split; [|split].
    + split; [destruct Hp; split; congruence|]. split; intros H.
      * rewrite F1. apply HA. apply F5. exact H.
      * rewrite F1. apply HN. congruence.
    + destruct l as [pc0|]; [|exact I].
      apply (loop_fact_frame pc0 st st1 F1 F5 HL).
    + destruct next; cbn; [exact HR | exact I].
  - destruct r as [[[p v] pc]|]; cbn [fst mem loop_at router_at]; [auto|].
    split; [exact HM|]. split; [exact HL|].
    destruct (router_entry device param) as [pc|] eqn:E; cbn; [|exact I].
    apply (router_entry_power device param pc E).
  - cbn [fst mem loop_at router_at].
    split; [|split; [|exact HR]].
    + destruct st; exact HM.
    + destruct l as [pc|]; [|exact I]. destruct st, pc; exact HL.
Qed.

Lemma sys_run_inv (ms : list move) (σ : sys) : sys_inv σ -> sys_inv (fst (sys_run ms σ)).
Proof.
  revert σ. induction ms as [|m rest IH]; intros σ H; [exact H|].
  cbn [sys_run]. pose proof (sys_step_inv m σ H) as H1.
  destruct (sys_step m σ) as [σ1 e1]. cbn [fst] in H1.
  specialize (IH σ1 H1). destruct (sys_run rest σ1) as [σ2 e2]. exact IH.
Qed.

Lemma sys_boot_inv (fault : gset Z) (lines : gmap Z Z) : sys_inv (sys_boot fault lines).
Proof.
  destruct (inv_boot fault lines) as (Hp & HA & HN).
  rewrite AlertActive_true in HA.
  split; [|split; exact I]. split; [exact Hp|]. split; [|exact HN].
  intros H. apply HA. exact H.
Qed.

(** An iteration that nothing comes in during restores the whole
    invariant of the sequential executions, from any state the interleaved
    ones can be in. *)
Lemma mem_inv_tick (st : state) : mem_inv st -> inv (state_of (ir_sensor_iteration st)).
Proof.
  unfold inv, mem_inv. rewrite !AlertActive_true. intros (Hp & HA & HN).
  destruct (ir_sensor_iteration_phases st) as [P1 _]. rewrite P1. clear P1.
  set (s := line IR_SENSOR_GPIO st).
  pose proof (door_state_handling_latch s st) as L.
  pose proof (door_state_handling_alert s st Hp) as D.
  set (st1 := state_of (door_state_handling s st)) in *.
  destruct L as (L1 & L2 & L3 & L4 & L5 & L6 & L7 & L8 & L9 & L10).
  assert (Hp1 : params_created st1).
  { destruct Hp as [Hd Ha]. split; congruence. }
  pose proof (alarm_behavior_frame s st1) as F.
  pose proof (alarm_behavior_latches s st1 Hp1) as B.
  set (st2 := state_of (alarm_behavior s st1)) in *.
  destruct F as (F1 & F2 & F3 & F4 & F5 & F6 & F7).
  destruct B as (B1 & B2).
  split; [destruct Hp1 as [Hd Ha]; split; congruence|]. split.
  - intros H. destruct (B1 H) as [E [Hs|Hc]].
    + split; congruence.
    + destruct (D Hc) as [Hc0 [Hs|Hs]]; [|split; congruence].
      specialize (HA Hc0). split; congruence.
  - intros H. destruct (B2 H) as [[E Hs]|Hn]; [congruence|].
    destruct (Z.eq_dec s (previous_sensor_state st)) as [Hs|Hs].
    + rewrite (L10 Hs) in Hn. specialize (HN Hn). congruence.
    + rewrite (L9 Hs) in Hn. discriminate Hn.
Qed.

(** ** The invariant on the alert, with and without overlap *)

(** C1, as the specification states it, fails once a write can come in
    during an iteration: the alarm is armed and the door opens; the polling
    task reads the sensor, handles the opening and reads [alarm_enabled]
    (true); the disarming call runs from its first statement to its last;
    the polling task goes on, pushes Alarm Triggered = true and ends the
    iteration. At that boundary Alarm Triggered is true and the alarm is
    off. *)
Lemma alert_survives_overlapping_disarm :
  let ms := arming_call ++ [MSensor 1] ++ List.repeat MLoop 5 ++ disarming_call
            ++ List.repeat MLoop 10 in
  let σ := fst (sys_run ms (sys_boot ∅ ∅)) in
  loop_at σ = None /\ router_at σ = None /\
  AlertActive (mem σ) = true /\ AlarmArmed (mem σ) = false /\
  ~ alert_invariant_at_tick_boundary σ.
Proof.
  intros ms σ.
  assert (H1 : loop_at σ = None) by (vm_compute; reflexivity).
  assert (H2 : router_at σ = None) by (vm_compute; reflexivity).
  assert (H3 : AlertActive (mem σ) = true) by (vm_compute; reflexivity).
  assert (H4 : AlarmArmed (mem σ) = false) by (vm_compute; reflexivity).
  repeat split; try assumption.
  intros H. destruct (H H1 H3) as [H5 _]. rewrite H4 in H5. discriminate H5.
Qed.

(** ** The executions without overlap among all executions *)

Lemma sys_run_app (ms1 ms2 : list move) (σ : sys) :
  sys_run (ms1 ++ ms2) σ =
  (fst (sys_run ms2 (fst (sys_run ms1 σ))),
   snd (sys_run ms1 σ) ++ snd (sys_run ms2 (fst (sys_run ms1 σ)))).
Proof.
  revert σ. induction ms1 as [|m rest IH]; intros σ.
  - cbn [app sys_run fst snd]. destruct (sys_run ms2 σ); reflexivity.
  - cbn [app sys_run]. destruct (sys_step m σ) as [σ1 e1]. rewrite IH.
    destruct (sys_run rest σ1) as [σ2 e2]. cbn [fst snd].
    rewrite app_assoc. reflexivity.
Qed.

Lemma sys_loop_alone_moves (fuel : nat) (σ : sys) :
  exists k : nat, sys_loop_alone fuel σ = sys_run (List.repeat MLoop k) σ.
Proof.
  revert σ. induction fuel as [|fuel IH]; intros σ; [exists 0%nat; reflexivity|].
  cbn [sys_loop_alone]. destruct (sys_step MLoop σ) as [σ1 e1] eqn:E.
  destruct (loop_at σ1) as [pc|] eqn:El.
  - destruct (IH σ1) as [k Hk]. exists (S k).
    cbn [List.repeat sys_run]. rewrite E, Hk. reflexivity.
  - exists 1%nat. cbn [List.repeat sys_run]. rewrite E, app_nil_r. reflexivity.
Qed.

Lemma sys_router_alone_moves (fuel : nat) (σ : sys) :
  exists k : nat, sys_router_alone fuel σ = sys_run (List.repeat MRouter k) σ.
Proof.
  revert σ. induction fuel as [|fuel IH]; intros σ; [exists 0%nat; reflexivity|].
  cbn [sys_router_alone]. destruct (sys_step MRouter σ) as [σ1 e1] eqn:E.
  destruct (router_at σ1) as [pc|] eqn:El.
  - destruct (IH σ1) as [k Hk]. exists (S k).
    cbn [List.repeat sys_run]. rewrite E, Hk. reflexivity.
  - exists 1%nat. cbn [List.repeat sys_run]. rewrite E, app_nil_r. reflexivity.
Qed.

(** Every execution in which iterations and calls follow one another is one
    of the executions of the two tasks: each iteration and each call run
    alone. *)
Lemma run_is_sys_run (acts : list action) (st : state) :
  exists ms : list move,
    sys_run ms (mkSys st None None) =
    (mkSys (state_of (run acts st)) None None, events_of (run acts st)).
Proof.
  revert st. induction acts as [|a rest IH]; intros st.
  - exists []. reflexivity.
  - destruct (run_cons a rest st) as [R1 R2]. rewrite R1, R2.
    destruct (IH (state_of (perform a st))) as [ms2 H2].
    assert (H1 : exists ms1, sys_run ms1 (mkSys st None None) =
                             (mkSys (state_of (perform a st)) None None,
                              events_of (perform a st))).
    { destruct a as [|device param val|level].
      - destruct (sys_loop_alone_moves 16 (mkSys st None None)) as [k Hk].
        exists (List.repeat MLoop k). rewrite <- Hk. apply sys_iteration_alone.
      - pose proof (sys_write_alone device param val st None) as W. cbv zeta in W.
        assert (P : perform (Write device param val) st =
                    (tt, state_of (write_cb device param val st),
                     events_of (write_cb device param val st))).
        { cbn [perform]. unfold bind, ret, state_of, events_of.
          destruct (write_cb device param val st) as [[res st1] e1]. cbn [fst snd].
          rewrite app_nil_r. reflexivity. }
        rewrite P. unfold state_of at 1, events_of at 1. cbn [fst snd].
        destruct (sys_step (MWrite device param val) (mkSys st None None))
          as [σ1 e1] eqn:E.
        assert (He : e1 = []).
        { cbn [sys_step router_at] in E. injection E as _ E. symmetry. exact E. }
        subst e1. cbn [fst] in W.
        destruct (router_at σ1) as [c|] eqn:Er.
        + destruct (sys_router_alone_moves 9 σ1) as [k Hk].
          exists (MWrite device param val :: List.repeat MRouter k).
          cbn [sys_run]. rewrite E, <- Hk, W. reflexivity.
        + destruct W as [W1 W2]. exists [MWrite device param val].
          cbn [sys_run]. rewrite E, W1, W2. reflexivity.
      - exists [MSensor level]. reflexivity. }
    destruct H1 as [ms1 H1]. exists (ms1 ++ ms2).
    rewrite sys_run_app, H1. cbn [fst snd]. rewrite H2. reflexivity.
Qed.

Lemma reachable_is_sys_run (st : state) :
  reachable st ->
  exists fault lines ms,
    fst (sys_run ms (sys_boot fault lines)) = mkSys st None None.
Proof.
  intros (fault & lines & acts & ->). exists fault, lines.
  destruct (run_is_sys_run acts (boot fault lines)) as [ms H].
  exists ms. unfold sys_boot. rewrite H. reflexivity.
Qed.

(** C1, as the code has it. At every moment of every execution, a write
    coming in during an iteration or not, the sink's Alarm Triggered is true
    only while DoorState is OPEN. In the executions in which no write comes
    in during an iteration it is also true only while AlarmArmed is true.
    And after any execution, an iteration that nothing comes in during ends
    with Alarm Triggered true only if AlarmArmed is true and DoorState is
    OPEN: what an overlapping disarm left behind lasts one iteration. *)
Theorem alert_invariant_with_and_without_overlap :
  (forall (fault : gset Z) (lines : gmap Z Z) (ms : list move),
     let σ := fst (sys_run ms (sys_boot fault lines)) in
     AlertActive (mem σ) = true -> DoorState (mem σ) = OPEN) /\
  (forall st : state,
     reachable st -> AlertActive st = true ->
     AlarmArmed st = true /\ DoorState st = OPEN) /\
  (forall (fault : gset Z) (lines : gmap Z Z) (ms : list move),
     let σ := fst (sys_run ms (sys_boot fault lines)) in
     loop_at σ = None ->
     let σ' := fst (sys_loop_alone 16 σ) in
     loop_at σ' = None /\
     (AlertActive (mem σ') = true ->
      AlarmArmed (mem σ') = true /\ DoorState (mem σ') = OPEN)).
Proof.
  split; [|split].
  - intros fault lines ms σ HA.
    destruct (sys_run_inv ms _ (sys_boot_inv fault lines)) as ((_ & H & _) & _).
    apply DoorState_open. apply H. apply AlertActive_true. exact HA.
  - intros st Hr HA. destruct (inv_reachable st Hr) as (_ & H & _).
    destruct (H HA) as [H1 H2]. split; [exact H1|]. apply DoorState_open. exact H2.
  - intros fault lines ms σ Hl σ'.
    destruct (sys_run_inv ms _ (sys_boot_inv fault lines)) as (HM & _).
    fold σ in HM. subst σ'. destruct σ as [st l r]. cbn [loop_at mem] in *. subst l.
    rewrite sys_iteration_alone. cbn [fst loop_at mem].
    split; [reflexivity|]. intros HA.
    destruct (mem_inv_tick st HM) as (_ & H & _).
    destruct (H HA) as [H1 H2]. split; [exact H1|]. apply DoorState_open. exact H2.
Qed.

Lemma alert_invariant_with_and_without_overlap_witness :
  let overlap := arming_call ++ [MSensor 1] ++ List.repeat MLoop 5 ++ disarming_call
                 ++ List.repeat MLoop 10 in
  let σ := fst (sys_run overlap (sys_boot ∅ ∅)) in
  let st := state_of (run [Write "Alarm System" ("Alarm System", "Power") true;
                           Sensor 1; Tick] (boot ∅ ∅)) in
  (AlertActive (mem σ) = true /\ DoorState (mem σ) = OPEN) /\
  (AlertActive st = true /\ AlarmArmed st = true) /\
  loop_at (fst (sys_loop_alone 16 σ)) = None.
Proof.
  intros overlap σ st.
  destruct alert_invariant_with_and_without_overlap as (T1 & T2 & T3).
  assert (HA : AlertActive (mem σ) = true) by (vm_compute; reflexivity).
  assert (Hr : reachable st) by (exists ∅, ∅; eexists; reflexivity).
  assert (Hs : AlertActive st = true) by reflexivity.
  assert (Hl : loop_at σ = None) by (vm_compute; reflexivity).
  split; [split; [exact HA | exact (T1 ∅ ∅ overlap HA)]|].
  split; [split; [exact Hs | exact (proj1 (T2 st Hr Hs))]|].
  exact (proj1 (T3 ∅ ∅ overlap Hl)).
Defined.

(** ** The latch and the alert, whatever the interleaving *)



(** ** The lines after an overlap *)

Lemma loop_step_fault (pc : loop_pc) (st : state) :
  gpio_fault (state_of (loop_step pc st)) = gpio_fault st.
Proof. destruct st, pc; unfold loop_step; fw_run; reflexivity. Qed.

Lemma router_step_fault (param : esp_rmaker_param_t) (val : bool) (pc : router_pc)
      (st : state) :
  gpio_fault (state_of (router_step param val pc st)) = gpio_fault st.
Proof. destruct st, pc; unfold router_step; fw_run; reflexivity. Qed.

Lemma sys_run_fault (ms : list move) (σ : sys) :
  gpio_fault (mem (fst (sys_run ms σ))) = gpio_fault (mem σ).
Proof.
  revert σ. induction ms as [|m rest IH]; intros σ; [reflexivity|].
  cbn [sys_run].
  assert (H : gpio_fault (mem (fst (sys_step m σ))) = gpio_fault (mem σ)).
  { destruct σ as [st l r]. destruct m as [| |device param val|level];
      cbn [sys_step mem loop_at router_at].
    - pose proof (loop_step_fault (default LReadSensor l) st) as F. unfold state_of in F.
      destruct (loop_step (default LReadSensor l) st) as [[next st1] e1]. exact F.
    - destruct r as [[[param val] pc]|]; [|reflexivity].
      pose proof (router_step_fault param val pc st) as F. unfold state_of in F.
      destruct (router_step param val pc st) as [[next st1] e1]. exact F.
    - destruct r; reflexivity.
    - destruct st; reflexivity. }
  destruct (sys_step m σ) as [σ1 e1]. cbn [fst] in H.
  specialize (IH σ1). destruct (sys_run rest σ1) as [σ2 e2]. cbn [fst] in *. congruence.
Qed.

Lemma tick_buzzer_iff_alert (st : state) :
  mem_inv st -> BUZZER_GPIO ∉ gpio_fault st ->
  let st' := state_of (ir_sensor_iteration st) in
  line BUZZER_GPIO st' = 1 <-> AlertActive st' = true.
Proof.
  intros (Hp & HA & _) Hf st'. subst st'.
  rewrite AlertActive_true, (tick_buzzer st Hf), (tick_cloud st Hp).
  set (s := line IR_SENSOR_GPIO st).
  destruct (alarm_enabled st) eqn:He; cbn [andb].
  - destruct (Z.eqb_spec s 1) as [Hs|Hs].
    + rewrite lookup_insert_eq. tauto.
    + destruct (Z.eqb_spec s (previous_sensor_state st)) as [Hq|Hq].
      * split; [discriminate|]. intros H. specialize (HA H). congruence.
      * rewrite lookup_insert_eq. split; discriminate.
  - rewrite lookup_insert_eq. split; discriminate.
Qed.

(** With a write coming in between the read of [led_state] and the LED
    write of the alarm-off branch, the LED line is left at the old level
    after both the iteration and the call are over. *)
Lemma led_line_stale_after_overlap :
  let ms := List.repeat MLoop 10 ++ light_on_call ++ List.repeat MLoop 2 in
  let σ := fst (sys_run ms (sys_boot ∅ ∅)) in
  loop_at σ = None /\ router_at σ = None /\
  led_state (mem σ) = true /\ line LED_GPIO (mem σ) = 0.
Proof. vm_compute. repeat split; reflexivity. Qed.

(** With a disarming call coming in between the push of Alarm Triggered =
    true and the buzzer write, the buzzer is left on with Alarm Triggered
    false after both are over. *)
Lemma buzzer_on_after_overlapping_disarm :
  let ms := arming_call ++ [MSensor 1] ++ List.repeat MLoop 6 ++ disarming_call
            ++ List.repeat MLoop 9 in
  let σ := fst (sys_run ms (sys_boot ∅ ∅)) in
  loop_at σ = None /\ router_at σ = None /\
  AlertActive (mem σ) = false /\ line BUZZER_GPIO (mem σ) = 1.
Proof. vm_compute. repeat split; reflexivity. Qed.

(** X7. An iteration of the polling loop that no write comes in during
    ends, from any state at all, with a working LED line at the level of
    [led_state]: whatever level an overlap left behind lasts one iteration.
    In the executions from boot in which no write comes in during an
    iteration and no iteration during a write, the line is at that level
    after every step. *)
Theorem led_line_restored_by_iteration :
  (forall st : state,
     LED_GPIO ∉ gpio_fault st ->
     let st' := state_of (ir_sensor_iteration st) in
     line LED_GPIO st' = level_of_bool (led_state st')) /\
  (forall (fault : gset Z) (lines : gmap Z Z) (acts : list action),
     LED_GPIO ∉ fault ->
     let st := state_of (run acts (boot fault lines)) in
     line LED_GPIO st = level_of_bool (led_state st)).
Proof.
  split.
  - intros st Hf st'. subst st'.
    destruct (ir_sensor_iteration_frame st) as (_ & F2 & _).
    destruct (ir_sensor_iteration_phases st) as [P1 _]. rewrite F2, P1.
    set (s := line IR_SENSOR_GPIO st).
    destruct (door_state_handling_latch s st) as (_ & L2 & _ & _ & L5 & _).
    destruct (alarm_behavior_lines s (state_of (door_state_handling s st))) as (_ & B2 & _).
    rewrite B2 by congruence. congruence.
  - intros fault lines acts Hf. exact (led_line_follows_light_state fault lines acts Hf).
Qed.

Lemma led_line_restored_by_iteration_witness :
  let ms := List.repeat MLoop 10 ++ light_on_call ++ List.repeat MLoop 2 in
  let st := mem (fst (sys_run ms (sys_boot ∅ ∅))) in
  let acts := [Write "Alarm System" ("Alarm System", "Power") true; Sensor 1;
               Tick; Write "Home Light" ("Home Light", "Power") true; Tick] in
  line LED_GPIO st = 0 /\
  line LED_GPIO (state_of (ir_sensor_iteration st)) = 1 /\
  line LED_GPIO (state_of (run acts (boot ∅ ∅))) = 1.
Proof.
  intros ms st acts.
  destruct led_line_restored_by_iteration as [T1 T2].
  assert (Hf : LED_GPIO ∉ gpio_fault st) by (vm_compute; set_solver).
  assert (Hf0 : LED_GPIO ∉ (∅ : gset Z)) by set_solver.
  assert (E1 : led_state (state_of (ir_sensor_iteration st)) = true)
    by (vm_compute; reflexivity).
  assert (E2 : led_state (state_of (run acts (boot ∅ ∅))) = true) by reflexivity.
  split; [vm_compute; reflexivity|]. split.
  - rewrite (T1 st Hf), E1. reflexivity.
  - rewrite (T2 ∅ ∅ acts Hf0), E2. reflexivity.
Defined.

(** X8. After any execution from boot, a write coming in during an
    iteration or not, an iteration that nothing comes in during ends with a
    working buzzer line at 1 exactly when the sink's Alarm Triggered is
    true: a buzzer left on by an overlapping disarm sounds for one iteration
    more. In the executions in which no write comes in during an iteration
    the two agree after every step. *)
Theorem buzzer_agrees_with_alert_after_iteration :
  (forall (fault : gset Z) (lines : gmap Z Z) (ms : list move),
     BUZZER_GPIO ∉ fault ->
     let st := mem (fst (sys_run ms (sys_boot fault lines))) in
     let st' := state_of (ir_sensor_iteration st) in
     line BUZZER_GPIO st' = 1 <-> AlertActive st' = true) /\
  (forall (fault : gset Z) (lines : gmap Z Z) (acts : list action),
     BUZZER_GPIO ∉ fault ->
     let st := state_of (run acts (boot fault lines)) in
     line BUZZER_GPIO st = 1 <-> AlertActive st = true).
Proof.
  split.
  - intros fault lines ms Hf st st'.
    destruct (sys_run_inv ms _ (sys_boot_inv fault lines)) as (HM & _). fold st in HM.
    apply (tick_buzzer_iff_alert st HM).
    unfold st. rewrite sys_run_fault. cbn [sys_boot mem].
    rewrite (proj1 (boot_facts fault lines)). exact Hf.
  - intros fault lines acts Hf. exact (buzzer_on_iff_alert_active fault lines acts Hf).
Qed.

Lemma buzzer_agrees_with_alert_after_iteration_witness :
  let ms := arming_call ++ [MSensor 1] ++ List.repeat MLoop 6 ++ disarming_call
            ++ List.repeat MLoop 9 in
  let st := mem (fst (sys_run ms (sys_boot ∅ ∅))) in
  let acts := [Write "Alarm System" ("Alarm System", "Power") true; Sensor 1; Tick] in
  line BUZZER_GPIO st = 1 /\
  line BUZZER_GPIO (state_of (ir_sensor_iteration st)) <> 1 /\
  line BUZZER_GPIO (state_of (run acts (boot ∅ ∅))) = 1.
Proof.
  intros ms st acts.
  destruct buzzer_agrees_with_alert_after_iteration as [T1 T2].
  assert (Hf : BUZZER_GPIO ∉ (∅ : gset Z)) by set_solver.
  assert (E1 : AlertActive (state_of (ir_sensor_iteration st)) = false)
    by (vm_compute; reflexivity).
  assert (E2 : AlertActive (state_of (run acts (boot ∅ ∅))) = true) by reflexivity.
  split; [vm_compute; reflexivity|]. split.
  - intros H. apply (T1 ∅ ∅ ms Hf) in H. fold st in H. rewrite E1 in H. discriminate H.
  - apply (T2 ∅ ∅ acts Hf). exact E2.
Defined.
